(** * containerd-clone-snapshotter: the clone-aware Prepare wrapper

    A shallow embedding of [snapshotter/snapshotter.go] and the properties
    its specification states about it.

    - Go strings are byte strings: [string].
    - [snapshots.Info.Labels] is a [map[string]string]: [gmap string string]
      (a nil map reads and deletes like the empty map).
    - A Go result pair [(v, err)] is a Rocq pair [(v, option error)];
      [None] is the nil error.
    - The wrapped store ([snapshots.Snapshotter]) and the operating system
      ([os], [io], [path/filepath]) are interfaces: records of operations
      over an arbitrary world [W].  Every call the wrapper makes on them is
      appended to a log, so that "which operation was called with which
      arguments, in which order" is a statement about the log. *)

From Stdlib Require Import String Ascii NArith ZArith List Bool Lia.
From stdpp Require Import base option strings gmap list.

Import ListNotations.
Local Open Scope string_scope.

(** ** Errors *)

Module Errors.

(** What a collaborator's error is, as far as this package can tell:
    [errdefs.ErrNotFound] and [errdefs.ErrAlreadyExists] of the store,
    [fs.ErrNotExist] of the operating system, the two sentinels of
    [filepath.WalkDir], anything else. *)
Inductive ErrKind :=
| KNotFound | KAlreadyExists | KNotExist | KSkipDir | KSkipAll | KOther.

(** A Go [error] value.  [wrapError msg err] is what [fmt.Errorf] builds
    for a format with [%w]: [msg] is the whole formatted text and [err] the
    operand of [%w], returned by [Unwrap].  [errorString] is what it builds
    for a format without [%w]. *)
Inductive error :=
| ErrExt (kind : ErrKind) (msg : string)
| errorString (msg : string)
| wrapError (msg : string) (err : error).

Definition ErrKind_eqb (a b : ErrKind) : bool :=
  match a, b with
  | KNotFound, KNotFound | KAlreadyExists, KAlreadyExists
  | KNotExist, KNotExist | KSkipDir, KSkipDir | KSkipAll, KSkipAll
  | KOther, KOther => true
  | _, _ => false
  end.

Fixpoint error_eqb (a b : error) : bool :=
  match a, b with
  | ErrExt k m, ErrExt k' m' => ErrKind_eqb k k' && String.eqb m m'
  | errorString m, errorString m' => String.eqb m m'
  | wrapError m e, wrapError m' e' => String.eqb m m' && error_eqb e e'
  | _, _ => false
  end.

(** [err.Error()] *)
Definition Error (e : error) : string :=
  match e with
  | ErrExt _ msg => msg
  | errorString msg => msg
  | wrapError msg _ => msg
  end.

(** [errors.Unwrap(err)] *)
Definition Unwrap (e : error) : option error :=
  match e with
  | wrapError _ err => Some err
  | _ => None
  end.

(** [errors.Is(err, target)] for a sentinel of kind [k]: the chain of
    [Unwrap] reaches an error of that kind. *)
Fixpoint Is (e : error) (k : ErrKind) : bool :=
  match e with
  | ErrExt k' _ => ErrKind_eqb k' k
  | errorString _ => false
  | wrapError _ err => Is err k
  end.

(** [errdefs.IsNotFound(err)] *)
Definition IsNotFound (e : error) : bool := Is e KNotFound.

(** [os.IsNotExist(err)]: it predates [errors.Is] and does not follow
    [Unwrap] of an error built by [fmt.Errorf]. *)
Definition IsNotExist (e : error) : bool :=
  match e with
  | ErrExt KNotExist _ => true
  | _ => false
  end.

(** [fs.SkipDir] and [fs.SkipAll] *)
Definition SkipDir : error := ErrExt KSkipDir "skip this directory".
Definition SkipAll : error := ErrExt KSkipAll "skip everything and stop the walk".

(** [e] occurs in the [Unwrap] chain of [e'] (reflexively). *)
Inductive wraps (e : error) : error -> Prop :=
| wraps_refl : wraps e e
| wraps_step msg e' : wraps e e' -> wraps e (wrapError msg e').

(** [s] occurs inside [t]. *)
Definition contains (t s : string) : Prop :=
  exists pre post : string, t = pre +:+ s +:+ post.

End Errors.
Export Errors.

(** ** Strings *)

Module Strings.

(** The rest of [s] after [prefix], when [s] starts with it. *)
Fixpoint trim_prefix (prefix s : string) : option string :=
  match prefix with
  | EmptyString => Some s
  | String c prefix' =>
      match s with
      | EmptyString => None
      | String c' s' => if Ascii.eqb c c' then trim_prefix prefix' s' else None
      end
  end.

(** [strings.CutPrefix(s, prefix)] *)
Definition CutPrefix (s prefix : string) : string * bool :=
  match trim_prefix prefix s with
  | Some after => (after, true)
  | None => (s, false)
  end.

(** [strings.Join(elems, sep)] *)
Fixpoint Join (elems : list string) (sep : string) : string :=
  match elems with
  | [] => ""
  | [x] => x
  | x :: rest => x +:+ sep +:+ Join rest sep
  end.

End Strings.

(** ** The data of [snapshots] and [mount] *)

(** [snapshots.Kind] *)
Inductive Kind := KindUnknown | KindView | KindActive | KindCommitted.

(** [snapshots.Info] (the two timestamps are left out: nothing here reads
    them). *)
Record Info := mkInfo {
  i_Kind : Kind;
  i_Name : string;
  i_Parent : string;
  i_Labels : gmap string string
}.

(** [snapshots.Info{}] *)
Definition Info_zero : Info := mkInfo KindUnknown "" "" ∅.

(** [snapshots.Opt], a [func(info *Info) error]: what it leaves in [*info]
    and what it returns.  It may have written to [*info] before failing.
    An option is taken to depend on the info it is given and on nothing
    else, as the options of the [snapshots] package do; the label map is
    held by value. *)
Definition Opt : Type := Info -> Info * option error.

(** [mount.Mount] *)
Record Mount := mkMount {
  m_Type : string;
  m_Source : string;
  m_Options : list string
}.

(** [snapshots.WithLabels(labels)]: it adds the labels to those the info
    has, and a label it names takes the new value. *)
Definition WithLabels (labels : gmap string string) : Opt :=
  fun info =>
    (mkInfo (i_Kind info) (i_Name info) (i_Parent info) (labels ∪ i_Labels info), None).

(** ** The pure part of the package *)

(** [LabelCloneSource] *)
Definition LabelCloneSource : string := "containerd.io/snapshot/clone-source".

(** The loop [for _, opt := range opts { if err := opt(info); err != nil
    { return err } }], which [Prepare] and [withoutLabel] both run. *)
Fixpoint applyOpts (opts : list Opt) (info : Info) : Info * option error :=
  match opts with
  | [] => (info, None)
  | opt :: rest =>
      match opt info with
      | (info', Some err) => (info', Some err)
      | (info', None) => applyOpts rest info'
      end
  end.

(** [delete(info.Labels, label)] *)
Definition deleteLabel (label : string) (info : Info) : Info :=
  mkInfo (i_Kind info) (i_Name info) (i_Parent info) (delete label (i_Labels info)).

(** [withoutLabel] *)
Definition withoutLabel (opts : list Opt) (label : string) : list Opt :=
  [ fun info =>
      match applyOpts opts info with
      | (info', Some err) => (info', Some err)
      | (info', None) => (deleteLabel label info', None)
      end ].

(** [joinMountTypes] *)
Definition joinMountTypes (mounts : list Mount) : string :=
  Strings.Join (map m_Type mounts) ", ".

(** The inner loop of [getWritableDir] over the options of an overlay
    mount: the value of the first option that starts with [upperdir=]. *)
Fixpoint upperdirOption (options : list string) : option string :=
  match options with
  | [] => None
  | opt :: rest =>
      match Strings.CutPrefix opt "upperdir=" with
      | (val, true) => Some val
      | (_, false) => upperdirOption rest
      end
  end.

(** The outer loop of [getWritableDir]: [Some] is a [return val, nil] from
    inside the loop, [None] is falling out of it. *)
Fixpoint writableDirLoop (mounts : list Mount) : option string :=
  match mounts with
  | [] => None
  | m :: rest =>
      if String.eqb (m_Type m) "overlay" then
        match upperdirOption (m_Options m) with
        | Some val => Some val
        | None => writableDirLoop rest
        end
      else if String.eqb (m_Type m) "bind" then Some (m_Source m)
      else writableDirLoop rest
  end.

(** [getWritableDir] *)
Definition getWritableDir (mounts : list Mount) : string * option error :=
  match writableDirLoop mounts with
  | Some val => (val, None)
  | None =>
      ("", Some (errorString
                   ("no writable directory found in mounts (types: "
                    +:+ joinMountTypes mounts +:+ ")")))
  end.

(** ** The collaborators: the wrapped store and the operating system *)

(** [fs.FileMode], a [uint32], with the bits this package tests. *)
Definition FileMode : Type := N.
Definition ModeDir : FileMode := N.shiftl 1 31.
Definition ModeSymlink : FileMode := N.shiftl 1 27.
Definition ModeNamedPipe : FileMode := N.shiftl 1 25.
Definition ModeSocket : FileMode := N.shiftl 1 24.
Definition ModeDevice : FileMode := N.shiftl 1 26.
Definition ModeCharDevice : FileMode := N.shiftl 1 21.
Definition ModeIrregular : FileMode := N.shiftl 1 19.
Definition ModeType : FileMode :=
  fold_right N.lor 0%N
    [ModeDir; ModeSymlink; ModeNamedPipe; ModeSocket; ModeDevice;
     ModeCharDevice; ModeIrregular].
Definition ModePerm : FileMode := 511%N. (* 0o777 *)

(** [m.Perm()], [m.Type()], [m.IsDir()] *)
Definition Perm (m : FileMode) : FileMode := N.land m ModePerm.
Definition ModeTypeOf (m : FileMode) : FileMode := N.land m ModeType.
Definition ModeIsDir (m : FileMode) : bool := negb (N.eqb (N.land m ModeDir) 0).

(** [os.O_WRONLY], [os.O_CREATE], [os.O_TRUNC] (linux) *)
Definition O_WRONLY : N := 1.
Definition O_CREATE : N := 64.
Definition O_TRUNC : N := 512.

(** [fs.FileInfo], as far as it is read here. *)
Record FileInfo := mkFileInfo {
  fi_Name : string;
  fi_Mode : FileMode
}.

(** An open [*os.File]. *)
Definition File : Type := N.

(** [fs.DirEntry] is an interface; a value of it is its four methods.
    [Info] may go back to the file system, so it runs in the world. *)
Record DirEntry (W : Type) := mkDirEntry {
  de_Name : string;
  de_IsDir : bool;
  de_Type : FileMode;
  de_Info : W -> (FileInfo * option error) * W
}.
Arguments mkDirEntry {W}.
Arguments de_Name {W}.
Arguments de_IsDir {W}.
Arguments de_Type {W}.
Arguments de_Info {W}.

(** [fs.FileInfoToDirEntry(info)] *)
Definition FileInfoToDirEntry {W} (info : FileInfo) : DirEntry W :=
  mkDirEntry (fi_Name info) (ModeIsDir (fi_Mode info))
             (ModeTypeOf (fi_Mode info)) (fun w => ((info, None), w)).

(** The four methods of [snapshots.Snapshotter] that this package calls on
    the wrapped store (the [context.Context] argument is only passed on and
    is left out).  Nothing is assumed about what they do. *)
Record Snapshotter (W : Type) := mkSnapshotter {
  sn_Stat : string -> W -> (Info * option error) * W;
  sn_Mounts : string -> W -> (list Mount * option error) * W;
  sn_Prepare : string -> string -> list Opt -> W -> (list Mount * option error) * W;
  sn_Remove : string -> W -> option error * W
}.
Arguments sn_Stat {W}.
Arguments sn_Mounts {W}.
Arguments sn_Prepare {W}.
Arguments sn_Remove {W}.

(** What this package calls of [os], [io], [path/filepath] and [fmt].
    Nothing is assumed about what they do. *)
Record Sys (W : Type) := mkSys {
  os_ReadDir : string -> W -> (list (DirEntry W) * option error) * W;
  os_RemoveAll : string -> W -> option error * W;
  os_Lstat : string -> W -> (FileInfo * option error) * W;
  os_Readlink : string -> W -> (string * option error) * W;
  os_Symlink : string -> string -> W -> option error * W;
  os_MkdirAll : string -> FileMode -> W -> option error * W;
  os_Open : string -> W -> (File * option error) * W;
  os_OpenFile : string -> N -> FileMode -> W -> (File * option error) * W;
  io_Copy : File -> File -> W -> (Z * option error) * W;
  f_Close : File -> W -> option error * W;
  filepath_Join : string -> string -> string;
  filepath_Rel : string -> string -> string * option error;
  (** the text [%q] prints for a string *)
  fmt_q : string -> string
}.
Arguments os_ReadDir {W}.
Arguments os_RemoveAll {W}.
Arguments os_Lstat {W}.
Arguments os_Readlink {W}.
Arguments os_Symlink {W}.
Arguments os_MkdirAll {W}.
Arguments os_Open {W}.
Arguments os_OpenFile {W}.
Arguments io_Copy {W}.
Arguments f_Close {W}.
Arguments filepath_Join {W}.
Arguments filepath_Rel {W}.
Arguments fmt_q {W}.

(** One call on a collaborator, with its arguments. *)
Inductive Call :=
| CallStat (key : string)
| CallMounts (key : string)
| CallPrepare (key parent : string) (opts : list Opt)
| CallRemove (key : string)
| CallReadDir (name : string)
| CallRemoveAll (path : string)
| CallLstat (name : string)
| CallReadlink (name : string)
| CallSymlink (oldname newname : string)
| CallMkdirAll (path : string) (perm : FileMode)
| CallOpen (name : string)
| CallOpenFile (name : string) (flag : N) (perm : FileMode)
| CallCopy (dst src : File)
| CallClose (f : File)
| CallInfo (name : string).

(** The calls that change what the store holds. *)
Definition mutatesStore (c : Call) : bool :=
  match c with
  | CallPrepare _ _ _ | CallRemove _ => true
  | _ => false
  end.

Definition isStoreCall (c : Call) : bool :=
  match c with
  | CallStat _ | CallMounts _ | CallPrepare _ _ _ | CallRemove _ => true
  | _ => false
  end.

(** ** Running code against the collaborators *)

(** How a run ends: it returns, or the walk of the file tree is still
    going when the fuel is used up, or it dereferences a nil interface. *)
Inductive outcome (A : Type) :=
| Returns (a : A)
| OutOfFuel
| Panics.
Arguments Returns {A}.
Arguments OutOfFuel {A}.
Arguments Panics {A}.

(** The world and the calls made so far. *)
Record State (W : Type) := mkState {
  world : W;
  log : list Call
}.
Arguments mkState {W}.
Arguments world {W}.
Arguments log {W}.

Definition M (W A : Type) : Type := State W -> outcome A * State W.

Definition ret {W A} (a : A) : M W A := fun s => (Returns a, s).

Definition bind {W A B} (m : M W A) (k : A -> M W B) : M W B :=
  fun s =>
    match m s with
    | (Returns a, s') => k a s'
    | (OutOfFuel, s') => (OutOfFuel, s')
    | (Panics, s') => (Panics, s')
    end.

(** A call on a collaborator: log it, run it on the world. *)
Definition call {W A} (c : Call) (op : W -> A * W) : M W A :=
  fun s =>
    let (a, w') := op (world s) in
    (Returns a, mkState w' (log s ++ [c])).

Declare Scope go_scope.
Delimit Scope go_scope with go.
Notation "'do' x <- m 'in' k" := (bind m (fun x => k))
  (at level 10, x pattern, m at level 100, k at level 200,
   format "'[v' 'do'  x  <-  m  'in' '/' k ']'") : go_scope.
Local Open Scope go_scope.


(** [fmt.Errorf(prefix + "%w" + suffix, err)] *)
Definition Errorf_w (prefix : string) (err : error) (suffix : string) : error :=
  wrapError (prefix +:+ Error err +:+ suffix) err.

(** ** [filepath.WalkDir] *)

Section WalkDir.
Context {W : Type} (sys : Sys W).

(** [fs.WalkDirFunc]; the entry is nil when the root could not be
    examined. *)
Definition WalkDirFunc : Type :=
  string -> option (DirEntry W) -> option error -> M W (option error).

Definition Lstat (name : string) : M W (FileInfo * option error) :=
  call (CallLstat name) (os_Lstat sys name).
Definition ReadDir (name : string) : M W (list (DirEntry W) * option error) :=
  call (CallReadDir name) (os_ReadDir sys name).

Definition isSkipDir (e : error) : bool := error_eqb e SkipDir.
Definition isSkipAll (e : error) : bool := error_eqb e SkipAll.

(** [walkDir] of [path/filepath] (go1.24), which calls itself on every
    entry of a directory; [fuel] bounds the depth of these calls. *)
Fixpoint walkDir (fuel : nat) (path : string) (d : DirEntry W)
    (walkDirFn : WalkDirFunc) {struct fuel} : M W (option error) :=
  match fuel with
  | O => fun s => (OutOfFuel, s)
  | S fuel' =>
      do err <- walkDirFn path (Some d) None in
      match err with
      | Some e => if isSkipDir e && de_IsDir d then ret None else ret (Some e)
      | None =>
      if negb (de_IsDir d) then ret None
      else
        do (dirs, err) <- ReadDir path in
        do stop <-
          match err with
          | Some e =>
              (* second call, to report the ReadDir error *)
              do err' <- walkDirFn path (Some d) (Some e) in
              match err' with
              | Some e' =>
                  if isSkipDir e' && de_IsDir d then ret (Some None)
                  else ret (Some (Some e'))
              | None => ret None
              end
          | None => ret None
          end in
        match stop with
        | Some r => ret r
        | None =>
            (fix range (dirs : list (DirEntry W)) : M W (option error) :=
               match dirs with
               | [] => ret None
               | d1 :: rest =>
                   let path1 := filepath_Join sys path (de_Name d1) in
                   do err <- walkDir fuel' path1 d1 walkDirFn in
                   match err with
                   | Some e => if isSkipDir e then ret None else ret (Some e)
                   | None => range rest
                   end
               end) dirs
        end
      end
  end.

(** [filepath.WalkDir] *)
Definition WalkDir (fuel : nat) (root : string) (fn : WalkDirFunc)
  : M W (option error) :=
  do (info, err) <- Lstat root in
  do err <-
    match err with
    | Some e => fn root None (Some e)
    | None => walkDir fuel root (FileInfoToDirEntry info) fn
    end in
  match err with
  | Some e => if isSkipDir e || isSkipAll e then ret None else ret (Some e)
  | None => ret None
  end.

End WalkDir.

(** ** The package against its collaborators

    The functions that reach [filepath.WalkDir] take its [fuel], the depth
    up to which the walk is followed; they have no other argument that the
    Go functions do not have, but for [context.Context]. *)

Section Package.
Context {W : Type} (inner : Snapshotter W) (sys : Sys W).

(** The calls on the wrapped store. *)
Definition Stat (key : string) : M W (Info * option error) :=
  call (CallStat key) (sn_Stat inner key).
Definition Mounts (key : string) : M W (list Mount * option error) :=
  call (CallMounts key) (sn_Mounts inner key).
Definition innerPrepare (key parent : string) (opts : list Opt)
  : M W (list Mount * option error) :=
  call (CallPrepare key parent opts) (sn_Prepare inner key parent opts).
Definition Remove (key : string) : M W (option error) :=
  call (CallRemove key) (sn_Remove inner key).

(** The calls on the operating system. *)
Definition RemoveAll (path : string) : M W (option error) :=
  call (CallRemoveAll path) (os_RemoveAll sys path).
Definition Readlink (name : string) : M W (string * option error) :=
  call (CallReadlink name) (os_Readlink sys name).
Definition Symlink (oldname newname : string) : M W (option error) :=
  call (CallSymlink oldname newname) (os_Symlink sys oldname newname).
Definition MkdirAll (path : string) (perm : FileMode) : M W (option error) :=
  call (CallMkdirAll path perm) (os_MkdirAll sys path perm).
Definition Open (name : string) : M W (File * option error) :=
  call (CallOpen name) (os_Open sys name).
Definition OpenFile (name : string) (flag : N) (perm : FileMode)
  : M W (File * option error) :=
  call (CallOpenFile name flag perm) (os_OpenFile sys name flag perm).
Definition Copy (dst src : File) : M W (Z * option error) :=
  call (CallCopy dst src) (io_Copy sys dst src).
Definition Close (f : File) : M W (option error) :=
  call (CallClose f) (f_Close sys f).
Definition EntryInfo (d : DirEntry W) : M W (FileInfo * option error) :=
  call (CallInfo (de_Name d)) (de_Info d).

(** [copyFile]; the deferred calls run when it returns, last deferred
    first: [out.Close()], whose error is returned if there is no other,
    then [in.Close()]. *)
Definition copyFile (src dst : string) (mode : FileMode) : M W (option error) :=
  do (in_, err) <- Open src in
  match err with
  | Some e => ret (Some e)
  | None =>
      do (out, err) <- OpenFile dst (N.lor O_CREATE (N.lor O_WRONLY O_TRUNC)) mode in
      match err with
      | Some e => do _ <- Close in_ in ret (Some e)
      | None =>
          do (_, err) <- Copy out in_ in
          do cerr <- Close out in
          do _ <- Close in_ in
          match err with
          | Some e => ret (Some e)
          | None => ret cerr
          end
      end
  end.

(** [copySymlink] *)
Definition copySymlink (src dst : string) : M W (option error) :=
  do (target, err) <- Readlink src in
  match err with
  | Some e => ret (Some e)
  | None => Symlink target dst
  end.

(** The function literal that [copyDir] hands to [filepath.WalkDir]. *)
Definition copyDirFn (srcDir dstDir : string) : WalkDirFunc (W:=W) :=
  fun path d err =>
    match err with
    | Some e => ret (Some e)
    | None =>
        match filepath_Rel sys srcDir path with
        | (_, Some e) => ret (Some e)
        | (rel, None) =>
            (* Skip the root entry; dstDir already exists. *)
            if String.eqb rel "." then ret None
            else
              let dst := filepath_Join sys dstDir rel in
              match d with
              | None => fun s => (Panics, s)
              | Some d =>
                  if negb (N.eqb (N.land (de_Type d) ModeSymlink) 0) then
                    copySymlink path dst
                  else if de_IsDir d then
                    do (info, err) <- EntryInfo d in
                    match err with
                    | Some e => ret (Some e)
                    | None => MkdirAll dst (Perm (fi_Mode info))
                    end
                  else
                    do (info, err) <- EntryInfo d in
                    match err with
                    | Some e => ret (Some e)
                    | None => copyFile path dst (Perm (fi_Mode info))
                    end
              end
        end
    end.

(** [copyDir] *)
Definition copyDir (fuel : nat) (srcDir dstDir : string) : M W (option error) :=
  WalkDir sys fuel srcDir (copyDirFn srcDir dstDir).

(** The loop of [clearDir] over the entries. *)
Fixpoint clearDirLoop (dir : string) (entries : list (DirEntry W))
  : M W (option error) :=
  match entries with
  | [] => ret None
  | e :: rest =>
      do err <- RemoveAll (filepath_Join sys dir (de_Name e)) in
      match err with
      | Some x => ret (Some x)
      | None => clearDirLoop dir rest
      end
  end.

(** [clearDir] *)
Definition clearDir (dir : string) : M W (option error) :=
  do (entries, err) <- ReadDir sys dir in
  match err with
  | Some e => if IsNotExist e then ret None else ret (Some e)
  | None => clearDirLoop dir entries
  end.

(** [copyWritableLayer] *)
Definition copyWritableLayer (fuel : nat) (srcMounts dstMounts : list Mount)
  : M W (option error) :=
  match getWritableDir srcMounts with
  | (_, Some err) => ret (Some (Errorf_w "source: " err ""))
  | (srcDir, None) =>
      match getWritableDir dstMounts with
      | (_, Some err) => ret (Some (Errorf_w "destination: " err ""))
      | (dstDir, None) =>
          (* Clear destination first so files deleted in the source are not kept. *)
          do err <- clearDir dstDir in
          match err with
          | Some e => ret (Some (Errorf_w "clear destination directory: " e ""))
          | None => copyDir fuel srcDir dstDir
          end
      end
  end.

(** [clonePrepare] *)
Definition clonePrepare (fuel : nat) (key sourceKey : string) (opts : list Opt)
  : M W (list Mount * option error) :=
  (* Retrieve source info to learn its parent snapshot chain. *)
  do (sourceInfo, err) <- Stat sourceKey in
  match err with
  | Some e =>
      ret ([], Some (Errorf_w ("stat source snapshot " +:+ fmt_q sys sourceKey +:+ ": ") e ""))
  | None =>
  (* Get source mounts to locate the writable directory we need to copy. *)
  do (sourceMounts, err) <- Mounts sourceKey in
  match err with
  | Some e =>
      ret ([], Some (Errorf_w ("get mounts for source snapshot "
                               +:+ fmt_q sys sourceKey +:+ ": ") e ""))
  | None =>
  (* Prepare the new snapshot with the same parent as the source. *)
  let innerOpts := withoutLabel opts LabelCloneSource in
  do (mounts, err) <- innerPrepare key (i_Parent sourceInfo) innerOpts in
  match err with
  | Some e =>
      ret ([], Some (Errorf_w ("prepare snapshot " +:+ fmt_q sys key +:+ ": ") e ""))
  | None =>
  (* Copy the writable layer from source to the new snapshot. *)
  do err <- copyWritableLayer fuel sourceMounts mounts in
  match err with
  | Some e =>
      do removeErr <- Remove key in
      match removeErr with
      | Some re =>
          ret ([], Some (Errorf_w "copy writable layer: " e
                           (" (cleanup also failed: " +:+ Error re +:+ ")")))
      | None =>
          ret ([], Some (Errorf_w ("copy writable layer from " +:+ fmt_q sys sourceKey
                                   +:+ " to " +:+ fmt_q sys key +:+ ": ") e ""))
      end
  | None => ret (mounts, None)
  end end end end.

(** [Prepare], the method of [CloneSnapshotter] *)
Definition Prepare (fuel : nat) (key parent : string) (opts : list Opt)
  : M W (list Mount * option error) :=
  match applyOpts opts Info_zero with
  | (_, Some err) => ret ([], Some err)
  | (info, None) =>
      match i_Labels info !! LabelCloneSource with
      | None => innerPrepare key parent opts
      | Some sourceKey => clonePrepare fuel key sourceKey opts
      end
  end.

End Package.

(** ** A store and a file system in memory

    One instance of the two collaborator interfaces, on which the package
    can be run: a file system that is a table from paths to nodes, and a
    store that, like containerd's native snapshotter, keeps the writable
    directory of a snapshot under [/snapshots/<key>], fills it with a copy
    of the parent's directory, and mounts it by a bind mount. *)

Module Mem.

Inductive Node :=
| NDir (perm : FileMode)
| NFile (perm : FileMode) (data : string)
| NLink (target : string).

Record Snap := mkSnap {
  sn_info : Info;
  sn_mounts : list Mount
}.

Record World := mkWorld {
  files : list (string * Node);      (* sorted by path *)
  snaps : list (string * Snap);
  handles : list string              (* open files, by number *)
}.

(** How the store behaves: the type of the mounts it hands out, and
    whether its [Remove] fails. *)
Record Config := mkConfig {
  cfg_mountType : string;
  cfg_removeFails : bool
}.

Fixpoint lookup {A} (k : string) (l : list (string * A)) : option A :=
  match l with
  | [] => None
  | (k', a) :: rest => if String.eqb k k' then Some a else lookup k rest
  end.

Fixpoint insert {A} (k : string) (a : A) (l : list (string * A)) : list (string * A) :=
  match l with
  | [] => [(k, a)]
  | (k', a') :: rest =>
      if String.eqb k k' then (k, a) :: rest
      else if String.ltb k k' then (k, a) :: (k', a') :: rest
      else (k', a') :: insert k a rest
  end.

Definition remove {A} (k : string) (l : list (string * A)) : list (string * A) :=
  filter (fun '(k', _) => negb (String.eqb k k')) l.

Definition slash : ascii := "/"%char.

(** The path of [p] below [dir], when [p] is strictly below it. *)
Definition below (dir p : string) : option string :=
  Strings.trim_prefix (dir +:+ "/") p.

Fixpoint hasSlash (s : string) : bool :=
  match s with
  | EmptyString => false
  | String c s' => Ascii.eqb c slash || hasSlash s'
  end.

(** [p] without its last element; [base p] is that element. *)
Fixpoint splitLast (p : string) : string * string :=
  match p with
  | EmptyString => ("", "")
  | String c p' =>
      let (d, b) := splitLast p' in
      if hasSlash p' then (String c d, b)
      else if Ascii.eqb c slash then ("", p') else ("", String c b)
  end.
Definition dirname (p : string) : string := fst (splitLast p).
Definition base (p : string) : string := snd (splitLast p).

Definition modeOf (n : Node) : FileMode :=
  match n with
  | NDir perm => N.lor ModeDir (Perm perm)
  | NFile perm _ => Perm perm
  | NLink _ => N.lor ModeSymlink ModePerm
  end.

Definition notExist (op path : string) : error :=
  ErrExt KNotExist (op +:+ " " +:+ path +:+ ": no such file or directory").
Definition osError (op path why : string) : error :=
  ErrExt KOther (op +:+ " " +:+ path +:+ ": " +:+ why).

Definition withFiles (w : World) (fs : list (string * Node)) : World :=
  mkWorld fs (snaps w) (handles w).

Definition lstat (name : string) (w : World) : (FileInfo * option error) * World :=
  match lookup name (files w) with
  | Some n => ((mkFileInfo (base name) (modeOf n), None), w)
  | None => ((mkFileInfo "" 0%N, Some (notExist "lstat" name)), w)
  end.

Definition entryOf (dir : string) (pn : string * Node) : option (DirEntry World) :=
  match below dir (fst pn) with
  | Some name =>
      if hasSlash name then None
      else Some (mkDirEntry name (ModeIsDir (modeOf (snd pn)))
                            (ModeTypeOf (modeOf (snd pn))) (lstat (fst pn)))
  | None => None
  end.

Definition readDir (name : string) (w : World)
  : (list (DirEntry World) * option error) * World :=
  match lookup name (files w) with
  | Some (NDir _) => ((omap (entryOf name) (files w), None), w)
  | Some _ => (([], Some (osError "open" name "not a directory")), w)
  | None => (([], Some (notExist "open" name)), w)
  end.

Definition removeTree (path : string) (fs : list (string * Node)) : list (string * Node) :=
  filter (fun '(p, _) => negb (String.eqb p path || bool_decide (is_Some (below path p)))) fs.

Definition removeAll (path : string) (w : World) : option error * World :=
  (None, withFiles w (removeTree path (files w))).

Definition readlink (name : string) (w : World) : (string * option error) * World :=
  match lookup name (files w) with
  | Some (NLink target) => ((target, None), w)
  | Some _ => (("", Some (osError "readlink" name "invalid argument")), w)
  | None => (("", Some (notExist "readlink" name)), w)
  end.

Definition isDirAt (p : string) (fs : list (string * Node)) : bool :=
  match lookup p fs with
  | Some (NDir _) => true
  | _ => false
  end.

Definition symlink (oldname newname : string) (w : World) : option error * World :=
  match lookup newname (files w) with
  | Some _ => (Some (osError "symlink" newname "file exists"), w)
  | None =>
      if isDirAt (dirname newname) (files w)
      then (None, withFiles w (insert newname (NLink oldname) (files w)))
      else (Some (notExist "symlink" newname), w)
  end.

(** [None]: an element of the path is there and is not a directory. *)
Fixpoint mkdirAllFiles (fuel : nat) (path : string) (perm : FileMode)
    (fs : list (string * Node)) : option (list (string * Node)) :=
  match lookup path fs with
  | Some (NDir _) => Some fs
  | Some _ => None
  | None =>
      match fuel with
      | O => Some (insert path (NDir perm) fs)
      | S fuel' =>
          if String.eqb (dirname path) "" then Some (insert path (NDir perm) fs)
          else
            match mkdirAllFiles fuel' (dirname path) perm fs with
            | Some fs' => Some (insert path (NDir perm) fs')
            | None => None
            end
      end
  end.

Definition mkdirAll (path : string) (perm : FileMode) (w : World) : option error * World :=
  match mkdirAllFiles (String.length path) path perm (files w) with
  | Some fs' => (None, withFiles w fs')
  | None => (Some (osError "mkdir" path "not a directory"), w)
  end.

Definition open (name : string) (w : World) : (File * option error) * World :=
  match lookup name (files w) with
  | Some (NFile _ _) =>
      ((N.of_nat (length (handles w)), None),
       mkWorld (files w) (snaps w) (handles w ++ [name]))
  | Some _ => ((0%N, Some (osError "open" name "is not a regular file")), w)
  | None => ((0%N, Some (notExist "open" name)), w)
  end.

(** The flags are always [O_CREATE|O_WRONLY|O_TRUNC] here. *)
Definition openFile (name : string) (flag : N) (perm : FileMode) (w : World)
  : (File * option error) * World :=
  let opened (fs : list (string * Node)) :=
    ((N.of_nat (length (handles w)), None), mkWorld fs (snaps w) (handles w ++ [name])) in
  match lookup name (files w) with
  | Some (NFile perm0 _) => opened (insert name (NFile perm0 "") (files w))
  | Some _ => ((0%N, Some (osError "open" name "is not a regular file")), w)
  | None =>
      if isDirAt (dirname name) (files w)
      then opened (insert name (NFile perm "") (files w))
      else ((0%N, Some (notExist "open" name)), w)
  end.

Definition dataAt (f : File) (w : World) : option (string * FileMode * string) :=
  match nth_error (handles w) (N.to_nat f) with
  | Some p =>
      match lookup p (files w) with
      | Some (NFile perm data) => Some (p, perm, data)
      | _ => None
      end
  | None => None
  end.

Definition copy (dst src : File) (w : World) : (Z * option error) * World :=
  match dataAt src w, dataAt dst w with
  | Some (_, _, data), Some (p, perm, _) =>
      ((Z.of_nat (String.length data), None),
       withFiles w (insert p (NFile perm data) (files w)))
  | _, _ => ((0%Z, Some (ErrExt KOther "copy: file already closed")), w)
  end.

Definition close (f : File) (w : World) : option error * World := (None, w).

Definition join (a b : string) : string := a +:+ "/" +:+ b.

Definition rel (basepath targpath : string) : string * option error :=
  if String.eqb basepath targpath then (".", None)
  else
    match below basepath targpath with
    | Some r => (r, None)
    | None => ("", Some (errorString ("Rel: can't make " +:+ targpath
                                      +:+ " relative to " +:+ basepath)))
    end.

Definition dq : string := String (ascii_of_nat 34) EmptyString.
Definition quote (s : string) : string := dq +:+ s +:+ dq.

Definition sys : Sys World :=
  mkSys World readDir removeAll lstat readlink symlink mkdirAll open openFile
        copy close join rel quote.

(** The store. *)

Local Open Scope N_scope.

Definition snapDir (key : string) : string := "/snapshots/" +:+ key.

Definition notFound (key : string) : error :=
  ErrExt KNotFound ("snapshot " +:+ key +:+ " does not exist: not found").

Definition stat (key : string) (w : World) : (Info * option error) * World :=
  match lookup key (snaps w) with
  | Some sn => ((sn_info sn, None), w)
  | None => ((Info_zero, Some (notFound key)), w)
  end.

Definition mounts (key : string) (w : World) : (list Mount * option error) * World :=
  match lookup key (snaps w) with
  | Some sn => ((sn_mounts sn, None), w)
  | None => (([], Some (notFound key)), w)
  end.

(** Everything below [from], copied below [to]. *)
Definition copyTree (from to : string) (fs : list (string * Node)) : list (string * Node) :=
  fold_left
    (fun acc '(p, n) =>
       match below from p with
       | Some r => insert (to +:+ "/" +:+ r) n acc
       | None => acc
       end)
    fs fs.

Definition prepare (cfg : Config) (key parent : string) (opts : list Opt) (w : World)
  : (list Mount * option error) * World :=
  match lookup key (snaps w) with
  | Some _ =>
      (([], Some (ErrExt KAlreadyExists ("snapshot " +:+ key +:+ ": already exists"))), w)
  | None =>
      match applyOpts opts (mkInfo KindActive key parent ∅) with
      | (_, Some e) => (([], Some e), w)
      | (info, None) =>
          if negb (String.eqb parent "") && negb (bool_decide (is_Some (lookup parent (snaps w))))
          then (([], Some (notFound parent)), w)
          else
            let fs1 := insert (snapDir key) (NDir 493) (files w) in
            let fs2 := if String.eqb parent "" then fs1
                       else copyTree (snapDir parent) (snapDir key) fs1 in
            let ms := [mkMount (cfg_mountType cfg) (snapDir key) ["rw"; "rbind"]] in
            ((ms, None), mkWorld fs2 (insert key (mkSnap info ms) (snaps w)) (handles w))
      end
  end.

Definition removeSnap (cfg : Config) (key : string) (w : World) : option error * World :=
  if cfg_removeFails cfg then (Some (ErrExt KOther ("remove " +:+ key +:+ ": device busy")), w)
  else
    match lookup key (snaps w) with
    | Some _ =>
        (None, mkWorld (removeTree (snapDir key) (files w)) (remove key (snaps w)) (handles w))
    | None => (Some (notFound key), w)
    end.

Definition store (cfg : Config) : Snapshotter World :=
  mkSnapshotter World stat mounts (prepare cfg) (removeSnap cfg).

(** The store of the tests: bind mounts, [Remove] works. *)
Definition native : Snapshotter World := store (mkConfig "bind" false).

(** The world of the package's symlink and deleted-file tests put
    together: a committed base with two files, and an active snapshot on it
    in which one of them was deleted and a file, a link and a directory
    were made. *)
Definition bindMount (key : string) : list Mount :=
  [mkMount "bind" (snapDir key) ["rw"; "rbind"]].

Definition world0 : World :=
  mkWorld
    [ ("/snapshots", NDir 493);
      ("/snapshots/base", NDir 493);
      ("/snapshots/base/base.txt", NFile 420 "base");
      ("/snapshots/base/will-be-deleted.txt", NFile 420 "delete me");
      ("/snapshots/source", NDir 493);
      ("/snapshots/source/base.txt", NFile 420 "base");
      ("/snapshots/source/etc", NDir 448);
      ("/snapshots/source/etc/conf", NFile 384 "k=v");
      ("/snapshots/source/link.txt", NLink "real.txt");
      ("/snapshots/source/lost", NLink "../nowhere");
      ("/snapshots/source/real.txt", NFile 420 "real") ]
    [ ("base", mkSnap (mkInfo KindCommitted "base" "" ∅) (bindMount "base"));
      ("source", mkSnap (mkInfo KindActive "source" "base" ∅) (bindMount "source")) ]
    [].

(** [world0] with a source whose mounts have no writable directory. *)
Definition world1 : World :=
  mkWorld (files world0)
    [ ("base", mkSnap (mkInfo KindCommitted "base" "" ∅) (bindMount "base"));
      ("source", mkSnap (mkInfo KindActive "source" "base" ∅)
                        [mkMount "tmpfs" "tmpfs" []]) ]
    [].

(** A store that hands out mounts of a type the package does not know,
    and whose [Remove] fails. *)
Definition stubborn : Snapshotter World := store (mkConfig "tmpfs" true).

(** A store whose mounts are of a type the package does not know. *)
Definition foreign : Snapshotter World := store (mkConfig "tmpfs" false).

Definition start (w : World) : State World := mkState w [].

(** What is below [dir], by relative path. *)
Definition tree (dir : string) (w : World) : list (string * Node) :=
  omap (fun pn => match below dir (fst pn) with
                  | Some r => Some (r, snd pn)
                  | None => None
                  end) (files w).

Definition cloneOpts (sourceKey : string) : list Opt :=
  [WithLabels {[ LabelCloneSource := sourceKey ]}].

(** *** Values used below to run the package *)

Definition sourceLabels : Info :=
  mkInfo KindUnknown "" "" {[ LabelCloneSource := "source" ]}.

Definition appLabels : Info := mkInfo KindUnknown "" "" {[ "app" := "db" ]}.

(** The caller's options put two labels; the store sees the other one
    only. *)
Definition twoLabels : gmap string string :=
  {[ LabelCloneSource := "source"; "app" := "db" ]}.

(** The world and the mounts after the store [stubborn] has prepared
    [clone] on [base]. *)
Definition innerOpts : list Opt := withoutLabel (cloneOpts "source") LabelCloneSource.
Definition preparedWorld : World :=
  snd (sn_Prepare stubborn "clone" "base" innerOpts world0).
Definition tmpfsMount : list Mount := [mkMount "tmpfs" "/snapshots/clone" ["rw"; "rbind"]].
Definition noDir : error :=
  errorString "no writable directory found in mounts (types: tmpfs)".

Definition linkEntry : DirEntry World :=
  mkDirEntry "link.txt" false ModeSymlink (lstat "/snapshots/source/link.txt").

Definition emptySource : Info := mkInfo KindUnknown "" "" {[ LabelCloneSource := "" ]}.

Definition cloned : outcome (list Mount * option error) * State World :=
  Prepare native sys 10 "clone" "ignored" (cloneOpts "source") (start world0).

End Mem.

(** ** What the specification says, in its own words *)

Module Spec.

(** "an option with the prefix [upperdir=]" *)
Definition isUpperdir (opt : string) : bool := String.prefix "upperdir=" opt.

(** "the suffix" of such an option *)
Definition suffix (opt : string) : string :=
  String.substring 9 (String.length opt - 9) opt.

(** An entry qualifies when it is of overlay type and has such an option,
    or is of bind type. *)
Definition qualifies (m : Mount) : bool :=
  (String.eqb (m_Type m) "overlay" && existsb isUpperdir (m_Options m))
  || String.eqb (m_Type m) "bind".

(** What a qualifying entry gives. *)
Definition writablePath (m : Mount) : string :=
  if String.eqb (m_Type m) "overlay" then
    match List.find isUpperdir (m_Options m) with
    | Some opt => suffix opt
    | None => ""
    end
  else m_Source m.

(** "the list of mount types seen", comma-separated *)
Definition typesSeen (mounts : list Mount) : string :=
  String.concat ", " (map m_Type mounts).

End Spec.

(** ** Calls made by a run *)

(** The calls that a run of [m] from [s] adds to the log. *)
Definition calls {W A} (m : M W A) (s : State W) : list Call :=
  drop (length (log s)) (log (snd (m s))).

(** Every call that [m] makes, from any state, satisfies [P]. *)
Definition logs {W A} (P : Call -> Prop) (m : M W A) : Prop :=
  forall s, exists l, log (snd (m s)) = (log s ++ l)%list /\ Forall P l.

(** The calls on the store among [l]. *)
Definition storeCalls (l : list Call) : list Call := List.filter isStoreCall l.

(** What a call of the copy walk may be: it reads anything, and what it
    creates is at [dstDir] joined with a relative path other than [.];
    it removes nothing and does not call the store. *)
Definition copyCall {W} (sys : Sys W) (dstDir : string) (c : Call) : Prop :=
  match c with
  | CallLstat _ | CallReadDir _ | CallReadlink _ | CallOpen _
  | CallCopy _ _ | CallClose _ | CallInfo _ => True
  | CallSymlink _ p | CallMkdirAll p _ | CallOpenFile p _ _ =>
      exists rel, rel <> "." /\ p = filepath_Join sys dstDir rel
  | CallRemoveAll _ | CallStat _ | CallMounts _ | CallPrepare _ _ _ | CallRemove _ => False
  end.

(** [os.RemoveAll] of the entries of [dir], as calls. *)
Definition removals {W} (sys : Sys W) (dir : string) (entries : list (DirEntry W))
  : list Call :=
  map (fun e => CallRemoveAll (filepath_Join sys dir (de_Name e))) entries.

(** The world after [os.RemoveAll] of every entry of [dir] in turn;
    [None] when one of them fails. *)
Fixpoint removedAll {W} (sys : Sys W) (dir : string) (entries : list (DirEntry W))
    (w : W) : option W :=
  match entries with
  | [] => Some w
  | e :: rest =>
      match os_RemoveAll sys (filepath_Join sys dir (de_Name e)) w with
      | (None, w') => removedAll sys dir rest w'
      | (Some _, _) => None
      end
  end.

(** The reading of the mount-shape sentence for the source's list: when the
    store answers [Stat] and [Mounts] for the source and these mounts have
    no writable directory, the run makes no call that changes the store. *)
Definition sourceShapeFailsBeforeCreation {W} (inner : Snapshotter W) (sys : Sys W)
    (fuel : nat) (key sourceKey : string) (opts : list Opt) (s : State W) : Prop :=
  forall si sourceMounts w1 w2 e,
    sn_Stat inner sourceKey (world s) = ((si, None), w1) ->
    sn_Mounts inner sourceKey w1 = ((sourceMounts, None), w2) ->
    snd (getWritableDir sourceMounts) = Some e ->
    forallb (fun c => negb (mutatesStore c))
            (calls (clonePrepare inner sys fuel key sourceKey opts) s) = true.

(** ** The helper of the package's tests *)

Module Test.

(** The loop of [writableDir] in [snapshotter_test.go] over the mounts it
    got from the store: the source of the first bind mount; [None] is the
    [t.Fatalf] after the loop. *)
Fixpoint writableDir (mounts : list Mount) : option string :=
  match mounts with
  | [] => None
  | m :: rest =>
      if String.eqb (m_Type m) "bind" then Some (m_Source m) else writableDir rest
  end.

End Test.

(** ** More predicates on mounts and calls *)

(** The two mount types that [getWritableDir] has a case for. *)
Definition knownType (m : Mount) : bool :=
  String.eqb (m_Type m) "overlay" || String.eqb (m_Type m) "bind".

(** A call that makes a directory or opens a file for writing does so with
    permission bits only, and a file is opened with
    [O_CREATE|O_WRONLY|O_TRUNC]. *)
Definition maskedCall (c : Call) : Prop :=
  match c with
  | CallMkdirAll _ perm => (perm <= ModePerm)%N
  | CallOpenFile _ flag perm => flag = 577%N /\ (perm <= ModePerm)%N
  | _ => True
  end.

(** ** Collaborators that fail, in memory *)

Module Faults.
Import Mem.

(** An option that fails. *)
Definition badOpt : Opt := fun info => (info, Some (errorString "bad option")).

(** The store of the tests, but [Mounts] fails. *)
Definition noMounts : Snapshotter World :=
  mkSnapshotter World stat
    (fun key w => ([], Some (ErrExt KOther ("mounts " +:+ key +:+ ": input/output error")), w))
    (prepare (mkConfig "bind" false)) (removeSnap (mkConfig "bind" false)).

(** The file system, but one file cannot be removed. *)
Definition pinned : string := "/snapshots/base/will-be-deleted.txt".
Definition pinnedSys : Sys World :=
  mkSys World readDir
    (fun path w =>
       if String.eqb path pinned
       then (Some (osError "unlinkat" path "operation not permitted"), w)
       else removeAll path w)
    lstat readlink symlink mkdirAll open openFile copy close join rel quote.

(** The world after a clone of [source] in [world0], and the state of the
    run at the moment the store has prepared the destination. *)
Definition atPrepared : State World :=
  mkState (snd (sn_Prepare native "clone" "base" innerOpts world0))
          [CallStat "source"; CallMounts "source"; CallPrepare "clone" "base" innerOpts].
Definition atCopied : State World :=
  snd (copyWritableLayer sys 10 (bindMount "source") (bindMount "clone") atPrepared).

(** The two entries of [/snapshots/base] in [world0]. *)
Definition baseTxt : DirEntry World :=
  mkDirEntry "base.txt" false 0%N (lstat "/snapshots/base/base.txt").
Definition deletedTxt : DirEntry World :=
  mkDirEntry "will-be-deleted.txt" false 0%N (lstat "/snapshots/base/will-be-deleted.txt").

(** Mounts that name a file, and a directory that is not there. *)
Definition fileMount : list Mount := [mkMount "bind" "/snapshots/base/base.txt" []].
Definition goneMount : list Mount := [mkMount "bind" "/snapshots/gone" []].

Definition cleared : State World := snd (clearDir sys "/snapshots/base" (start world0)).

Definition overlayOptions : list string :=
  ["index=off"; "workdir=/var/lib/s/7/work"; "upperdir=/var/lib/s/7/fs";
   "lowerdir=/var/lib/s/3/fs:/var/lib/s/1/fs"].

End Faults.

(** ** What the walk meets *)

Section Visits.
Context {W : Type} (sys : Sys W) (fn : WalkDirFunc (W:=W)).

(** The loop of [walkDir] over the entries of a directory, by name. *)
Definition rangeDirs (fuel : nat) (path : string)
  : list (DirEntry W) -> M W (option error) :=
  fix range (dirs : list (DirEntry W)) : M W (option error) :=
    match dirs with
    | [] => ret None
    | d1 :: rest =>
        let path1 := filepath_Join sys path (de_Name d1) in
        do err <- walkDir sys fuel path1 d1 fn in
        match err with
        | Some e => if isSkipDir e then ret None else ret (Some e)
        | None => range rest
        end
    end.

(** The loop has gone through the entries [dirs] of [path], from one state
    to another: the walk of each of them has returned nil. *)
Inductive Walked (fuel : nat) (path : string)
  : list (DirEntry W) -> State W -> State W -> Prop :=
| Walked_nil (s : State W) : Walked fuel path [] s s
| Walked_cons (d1 : DirEntry W) (rest : list (DirEntry W)) (s s1 s2 : State W) :
    walkDir sys fuel (filepath_Join sys path (de_Name d1)) d1 fn s = (Returns None, s1) ->
    Walked fuel path rest s1 s2 ->
    Walked fuel path (d1 :: rest) s s2.

(** [Visits fuel path d s path' d' s']: the walk of the entry [d] at
    [path], started in state [s], meets the entry [d'] at [path'] in state
    [s'], that is, calls the function on it there.  It meets [d] itself at
    once; and when the function returns nil on [d], [d] is a directory, the
    listing of it is accepted, and the loop has gone through the entries
    before [d1], it meets what the walk of [d1] meets. *)
Inductive Visits
  : nat -> string -> DirEntry W -> State W -> string -> DirEntry W -> State W -> Prop :=
| Visits_here (fuel : nat) (path : string) (d : DirEntry W) (s : State W) :
    Visits (S fuel) path d s path d s
| Visits_below (fuel : nat) (path : string) (d : DirEntry W) (s s1 : State W)
    (dirs : list (DirEntry W)) (err : option error) (s2 s3 : State W)
    (pre : list (DirEntry W)) (d1 : DirEntry W) (post : list (DirEntry W))
    (s4 : State W) (path' : string) (d' : DirEntry W) (s' : State W) :
    fn path (Some d) None s = (Returns None, s1) ->
    de_IsDir d = true ->
    ReadDir sys path s1 = (Returns (dirs, err), s2) ->
    match err with
    | Some e => fn path (Some d) (Some e) s2 = (Returns None, s3)
    | None => s3 = s2
    end ->
    dirs = (pre ++ d1 :: post)%list ->
    Walked fuel path pre s3 s4 ->
    Visits fuel (filepath_Join sys path (de_Name d1)) d1 s4 path' d' s' ->
    Visits (S fuel) path d s path' d' s'.

End Visits.

(** The copy of [/snapshots/source] into [/snapshots/base] in memory, up to
    the link. *)
Module Walks.
Import Mem.

Definition fn : WalkDirFunc (W:=World) :=
  copyDirFn sys "/snapshots/source" "/snapshots/base".

Definition rootInfo : FileInfo := mkFileInfo "source" (N.lor ModeDir 493%N).

Definition baseEntry : DirEntry World :=
  mkDirEntry "base.txt" false 0%N (lstat "/snapshots/source/base.txt").
Definition etcEntry : DirEntry World :=
  mkDirEntry "etc" true ModeDir (lstat "/snapshots/source/etc").
Definition lostEntry : DirEntry World :=
  mkDirEntry "lost" false ModeSymlink (lstat "/snapshots/source/lost").
Definition realEntry : DirEntry World :=
  mkDirEntry "real.txt" false 0%N (lstat "/snapshots/source/real.txt").

Definition examined : State World := mkState world0 [CallLstat "/snapshots/source"].
Definition listed : State World :=
  mkState world0 [CallLstat "/snapshots/source"; CallReadDir "/snapshots/source"].
Definition afterBase : State World :=
  snd (walkDir sys 9 "/snapshots/source/base.txt" baseEntry fn listed).
Definition afterEtc : State World :=
  snd (walkDir sys 9 "/snapshots/source/etc" etcEntry fn afterBase).

End Walks.

(** * Properties *)

(** ** Strings *)

Lemma trim_prefix_Some prefix s after :
  Strings.trim_prefix prefix s = Some after <-> s = prefix +:+ after.
Proof.
  revert s; induction prefix as [|c p IH]; intros s; simpl.
  - split; [intros [= ->] | intros ->]; reflexivity.
  - destruct s as [|c' s']; [split; discriminate|].
    change (String c p +:+ after) with (String c (p +:+ after)).
    destruct (Ascii.eqb_spec c c') as [->|Hne].
    + rewrite IH. split; [intros ->; reflexivity | intros [=]; assumption].
    + split; [discriminate | intros [=]; congruence].
Qed.

Lemma CutPrefix_true s prefix after :
  Strings.CutPrefix s prefix = (after, true) <-> s = prefix +:+ after.
Proof.
  unfold Strings.CutPrefix. rewrite <- trim_prefix_Some.
  destruct (Strings.trim_prefix prefix s); split; congruence.
Qed.


Lemma append_assoc (a b c : string) : (a +:+ b) +:+ c = a +:+ (b +:+ c).
Proof.
  induction a as [|x a IH]; [reflexivity|].
  change (String x ((a +:+ b) +:+ c) = String x (a +:+ (b +:+ c))). now rewrite IH.
Qed.

Lemma append_nil_r (a : string) : a +:+ "" = a.
Proof.
  induction a as [|x a IH]; [reflexivity|].
  change (String x (a +:+ "") = String x a). now rewrite IH.
Qed.

(** ** The log only grows, by calls of a known kind *)

Section Logs.
Context {W : Type}.

Lemma calls_of_log {A} (m : M W A) (s : State W) (l : list Call) :
  log (snd (m s)) = (log s ++ l)%list -> calls m s = l.
Proof.
  intros H. unfold calls. rewrite H. apply drop_app_length.
Qed.

Lemma logs_calls {A} (P : Call -> Prop) (m : M W A) (s : State W) :
  logs P m -> log (snd (m s)) = (log s ++ calls m s)%list /\ Forall P (calls m s).
Proof.
  intros H. destruct (H s) as (l & Hl & HP).
  rewrite (calls_of_log m s l Hl). auto.
Qed.

Lemma logs_ret {A} (P : Call -> Prop) (a : A) : logs P (ret (W:=W) a).
Proof. intros s. exists []. simpl. rewrite app_nil_r. auto. Qed.

Lemma logs_stop {A} (P : Call -> Prop) (o : outcome A) :
  logs P (fun s : State W => (o, s)).
Proof. intros s. exists []. simpl. rewrite app_nil_r. auto. Qed.

Lemma logs_call {A} (P : Call -> Prop) (c : Call) (op : W -> A * W) :
  P c -> logs P (call c op).
Proof.
  intros Hc s. exists [c]. unfold call. destruct (op (world s)) as [a w'].
  simpl. auto.
Qed.

Lemma logs_bind {A B} (P : Call -> Prop) (m : M W A) (k : A -> M W B) :
  logs P m -> (forall a, logs P (k a)) -> logs P (bind m k).
Proof.
  intros Hm Hk s. unfold bind.
  destruct (Hm s) as (l & Hl & HP).
  destruct (m s) as [[a| |] s']; simpl in Hl.
  - destruct (Hk a s') as (l' & Hl' & HP').
    exists (l ++ l')%list. rewrite Hl', Hl, <- app_assoc.
    split; [reflexivity | apply Forall_app; auto].
  - exists l; auto.
  - exists l; auto.
Qed.

Lemma logs_weaken {A} (P Q : Call -> Prop) (m : M W A) :
  (forall c, P c -> Q c) -> logs P m -> logs Q m.
Proof.
  intros HPQ Hm s. destruct (Hm s) as (l & Hl & HP).
  exists l. split; [assumption | eapply Forall_impl; eauto].
Qed.

End Logs.

(** Goes through a run built from [bind], [call], [ret] and case
    distinctions, leaving the calls to be checked against the predicate. *)
Ltac logs_step :=
  match goal with
  | |- logs _ (bind _ _) => apply logs_bind; [| intros ?]
  | |- logs _ (ret _) => apply logs_ret
  | |- logs _ (call _ _) => apply logs_call
  | |- logs _ (fun s => (_, s)) => apply logs_stop
  | |- logs _ (match ?x with _ => _ end) => destruct x
  | |- logs _ (if ?x then _ else _) => destruct x
  | |- logs _ (let (_, _) := ?x in _) => destruct x
  end.

Section WalkLogs.
Context {W : Type} (sys : Sys W).

Lemma logs_walkDir (P : Call -> Prop) (fn : WalkDirFunc (W:=W)) :
  (forall path d err, logs P (fn path d err)) ->
  (forall name, P (CallReadDir name)) ->
  forall fuel path d, logs P (walkDir sys fuel path d fn).
Proof.
  intros Hfn Hrd. induction fuel as [|fuel IH]; intros path d; simpl.
  - apply logs_stop.
  - apply logs_bind; [apply Hfn|]. intros err.
    destruct err as [e|].
    { destruct (isSkipDir e && de_IsDir d); apply logs_ret. }
    destruct (negb (de_IsDir d)); [apply logs_ret|].
    apply logs_bind; [apply logs_call, Hrd|]. intros [dirs err].
    apply logs_bind.
    { destruct err as [e|]; [|apply logs_ret].
      apply logs_bind; [apply Hfn|]. intros [e'|]; [|apply logs_ret].
      destruct (isSkipDir e' && de_IsDir d); apply logs_ret. }
    intros [r|]; [apply logs_ret|].
    induction dirs as [|d1 rest IHd]; [apply logs_ret|].
    apply logs_bind; [apply IH|]. intros [e|]; [|apply IHd].
    destruct (isSkipDir e); apply logs_ret.
Qed.

Lemma logs_WalkDir (P : Call -> Prop) (fn : WalkDirFunc (W:=W)) :
  (forall path d err, logs P (fn path d err)) ->
  (forall name, P (CallReadDir name)) ->
  (forall name, P (CallLstat name)) ->
  forall fuel root, logs P (WalkDir sys fuel root fn).
Proof.
  intros Hfn Hrd Hls fuel root. unfold WalkDir.
  apply logs_bind; [apply logs_call, Hls|]. intros [info err].
  apply logs_bind.
  { destruct err; [apply Hfn | apply logs_walkDir; assumption]. }
  intros [e|]; [|apply logs_ret].
  destruct (isSkipDir e || isSkipAll e); apply logs_ret.
Qed.

End WalkLogs.

(** ** The fuel only cuts a run short

    A walk that returns with some fuel returns the same, in the same
    state, with any larger amount. *)

Section Fuel.
Context {W : Type} (sys : Sys W).

Lemma bind_Returns {A B} (m : M W A) (k : A -> M W B) (s s' : State W) (b : B) :
  bind m k s = (Returns b, s') <->
  exists a s1, m s = (Returns a, s1) /\ k a s1 = (Returns b, s').
Proof.
  unfold bind. destruct (m s) as [[a| |] s1]; split.
  - intros H. exists a, s1. auto.
  - intros (a' & s1' & [= -> ->] & H). exact H.
  - discriminate.
  - intros (a' & s1' & [=] & _).
  - discriminate.
  - intros (a' & s1' & [=] & _).
Qed.

Lemma walkDir_more_fuel (fn : WalkDirFunc (W:=W)) (n : nat) :
  forall path d s r s',
    walkDir sys n path d fn s = (Returns r, s') ->
    forall m, n <= m -> walkDir sys m path d fn s = (Returns r, s').
Proof.
  induction n as [|n IH]; intros path d s r s' Hrun m Hle; [discriminate Hrun|].
  destruct m as [|m]; [lia|]. assert (Hnm : n <= m) by lia.
  simpl in Hrun |- *.
  apply bind_Returns in Hrun as (err & s1 & Hfn & Hrun).
  apply bind_Returns. exists err, s1. split; [exact Hfn|].
  destruct err as [e|]; [exact Hrun|].
  destruct (negb (de_IsDir d)); [exact Hrun|].
  apply bind_Returns in Hrun as ([dirs err] & s2 & Hrd & Hrun).
  apply bind_Returns. exists (dirs, err), s2. split; [exact Hrd|].
  apply bind_Returns in Hrun as (stop & s3 & Hstop & Hrun).
  apply bind_Returns. exists stop, s3. split; [exact Hstop|].
  destruct stop as [r0|]; [exact Hrun|].
  clear Hfn Hrd Hstop. revert s3 Hrun.
  induction dirs as [|d1 rest IHd]; intros s3 Hrun; [exact Hrun|].
  apply bind_Returns in Hrun as (r1 & s4 & Hsub & Hrun).
  apply bind_Returns. exists r1, s4. split; [exact (IH _ _ _ _ _ Hsub m Hnm)|].
  destruct r1 as [e|]; [exact Hrun | exact (IHd _ Hrun)].
Qed.

Lemma WalkDir_more_fuel (fn : WalkDirFunc (W:=W)) (n m : nat) (root : string)
    (s : State W) r s' :
  WalkDir sys n root fn s = (Returns r, s') -> n <= m ->
  WalkDir sys m root fn s = (Returns r, s').
Proof.
  unfold WalkDir. intros Hrun Hle.
  apply bind_Returns in Hrun as ([info err] & s1 & Hls & Hrun).
  apply bind_Returns. exists (info, err), s1. split; [exact Hls|].
  apply bind_Returns in Hrun as (r1 & s2 & Hsub & Hrun).
  apply bind_Returns. exists r1, s2. split; [|exact Hrun].
  destruct err as [e|]; [exact Hsub | exact (walkDir_more_fuel fn n _ _ _ _ _ Hsub m Hle)].
Qed.

End Fuel.

Section PackageLogs.
Context {W : Type} (inner : Snapshotter W) (sys : Sys W).

Lemma logs_copyFile (P : Call -> Prop) (src dst : string) (mode : FileMode) :
  P (CallOpen src) ->
  P (CallOpenFile dst (N.lor O_CREATE (N.lor O_WRONLY O_TRUNC)) mode) ->
  (forall a b, P (CallCopy a b)) -> (forall f, P (CallClose f)) ->
  logs P (copyFile sys src dst mode).
Proof.
  intros H1 H2 H3 H4. unfold copyFile, Open, OpenFile, Copy, Close.
  repeat (logs_step; auto).
Qed.

Lemma logs_copyDirFn (srcDir dstDir path : string) d err :
  logs (copyCall sys dstDir) (copyDirFn sys srcDir dstDir path d err).
Proof.
  unfold copyDirFn.
  destruct err as [e|]; [apply logs_ret|].
  destruct (filepath_Rel sys srcDir path) as [rel [e|]]; [apply logs_ret|].
  destruct (String.eqb_spec rel ".") as [->|Hrel]; [apply logs_ret|].
  destruct d as [d|]; [|apply logs_stop].
  assert (Hdst : exists r, r <> "." /\
            filepath_Join sys dstDir rel = filepath_Join sys dstDir r)
    by (exists rel; auto).
  destruct (negb (N.land (de_Type d) ModeSymlink =? 0)%N).
  - unfold copySymlink, Readlink, Symlink. repeat (logs_step; simpl; auto).
  - destruct (de_IsDir d); unfold EntryInfo, MkdirAll.
    + repeat (logs_step; simpl; auto).
    + apply logs_bind; [apply logs_call; exact I|]. intros [info [e|]];
        [apply logs_ret|].
      apply logs_copyFile; simpl; auto.
Qed.

Lemma logs_copyDir (fuel : nat) (srcDir dstDir : string) :
  logs (copyCall sys dstDir) (copyDir sys fuel srcDir dstDir).
Proof.
  unfold copyDir. apply logs_WalkDir; simpl; auto.
  intros. apply logs_copyDirFn.
Qed.

End PackageLogs.

(** ** Clearing the destination *)

Section Clear.
Context {W : Type} (sys : Sys W).

Lemma clearDirLoop_run (dir : string) (entries : list (DirEntry W)) (s : State W) :
  exists n,
    log (snd (clearDirLoop sys dir entries s))
    = (log s ++ removals sys dir (take n entries))%list /\
    match fst (clearDirLoop sys dir entries s) with
    | Returns None =>
        n = length entries /\
        removedAll sys dir entries (world s)
        = Some (world (snd (clearDirLoop sys dir entries s)))
    | Returns (Some _) => removedAll sys dir entries (world s) = None
    | _ => False
    end.
Proof.
  revert s. induction entries as [|e rest IH]; intros s.
  - exists 0. simpl. rewrite app_nil_r. auto.
  - simpl. unfold bind, RemoveAll, call.
    destruct (os_RemoveAll sys (filepath_Join sys dir (de_Name e)) (world s))
      as [[x|] w'] eqn:Hrm.
    + exists 1. simpl. auto.
    + destruct (IH (mkState w' (log s ++ [CallRemoveAll
                 (filepath_Join sys dir (de_Name e))]))) as (n & Hlog & Hres).
      exists (S n). rewrite Hlog. simpl. rewrite <- app_assoc. simpl.
      split; [reflexivity|].
      destruct (fst (clearDirLoop sys dir rest _)) as [[x|]| |]; try assumption.
      destruct Hres as [-> Hres]. auto.
Qed.

(** [clearDir], in full: what it calls, and what it returns for each
    answer of [os.ReadDir]. *)
Lemma clearDir_run (dir : string) (s : State W) :
  forall entries err w1,
    os_ReadDir sys dir (world s) = ((entries, err), w1) ->
    exists n,
      log (snd (clearDir sys dir s))
      = (log s ++ CallReadDir dir :: removals sys dir (take n entries))%list /\
      match err with
      | Some e =>
          n = 0 /\
          clearDir sys dir s
          = (Returns (if IsNotExist e then None else Some e),
             mkState w1 (log s ++ [CallReadDir dir]))
      | None =>
          match fst (clearDir sys dir s) with
          | Returns None =>
              n = length entries /\
              removedAll sys dir entries w1 = Some (world (snd (clearDir sys dir s)))
          | Returns (Some _) => removedAll sys dir entries w1 = None
          | _ => False
          end
      end.
Proof.
  intros entries err w1 Hrd.
  unfold clearDir, bind, ReadDir, call. rewrite Hrd.
  destruct err as [e|].
  - exists 0. rewrite take_0. simpl. destruct (IsNotExist e); auto.
  - destruct (clearDirLoop_run dir entries (mkState w1 (log s ++ [CallReadDir dir])))
      as (n & Hlog & Hres).
    exists n. rewrite Hlog. simpl. rewrite <- app_assoc. auto.
Qed.

Lemma clearDirLoop_app (dir : string) (pre rest : list (DirEntry W))
    (w : W) (l : list Call) (w2 : W) :
  removedAll sys dir pre w = Some w2 ->
  clearDirLoop sys dir (pre ++ rest)%list (mkState w l)
  = clearDirLoop sys dir rest (mkState w2 (l ++ removals sys dir pre)).
Proof.
  revert w l. induction pre as [|e pre IH]; intros w l; simpl.
  - intros [= <-]. now rewrite app_nil_r.
  - unfold bind, RemoveAll, call. simpl.
    destruct (os_RemoveAll sys (filepath_Join sys dir (de_Name e)) w)
      as [[x|] w']; [discriminate|].
    intros H. rewrite (IH _ _ H). now rewrite <- app_assoc.
Qed.

Lemma removedAll_None (dir : string) (entries : list (DirEntry W)) (w : W) :
  removedAll sys dir entries w = None ->
  exists pre e post x w2 w3,
    entries = (pre ++ e :: post)%list /\
    removedAll sys dir pre w = Some w2 /\
    os_RemoveAll sys (filepath_Join sys dir (de_Name e)) w2 = (Some x, w3).
Proof.
  revert w. induction entries as [|e rest IH]; intros w; simpl; [discriminate|].
  destruct (os_RemoveAll sys (filepath_Join sys dir (de_Name e)) w) as [[x|] w'] eqn:Hrm.
  - intros _. exists [], e, rest, x, w, w'. auto.
  - intros H. destruct (IH w' H) as (pre & e' & post & x & w2 & w3 & -> & Hpre & Hx).
    exists (e :: pre), e', post, x, w2, w3. simpl. rewrite Hrm. auto.
Qed.

(** [clearDir] when every entry is removed. *)
Lemma clearDir_all (dir : string) (s : State W) (entries : list (DirEntry W))
    (w1 w2 : W) :
  os_ReadDir sys dir (world s) = ((entries, None), w1) ->
  removedAll sys dir entries w1 = Some w2 ->
  clearDir sys dir s
  = (Returns None, mkState w2 (log s ++ CallReadDir dir :: removals sys dir entries)).
Proof.
  intros Hrd Hall. unfold clearDir, bind, ReadDir, call. rewrite Hrd.
  rewrite <- (app_nil_r entries) at 1.
  rewrite (clearDirLoop_app dir entries [] _ _ w2 Hall). simpl.
  now rewrite <- app_assoc.
Qed.

(** [clearDir] when an entry cannot be removed. *)
Lemma clearDir_first_failure (dir : string) (pre post : list (DirEntry W))
    (e : DirEntry W) (s : State W) (w1 w2 w3 : W) (x : error) :
  os_ReadDir sys dir (world s) = (((pre ++ e :: post)%list, None), w1) ->
  removedAll sys dir pre w1 = Some w2 ->
  os_RemoveAll sys (filepath_Join sys dir (de_Name e)) w2 = (Some x, w3) ->
  clearDir sys dir s
  = (Returns (Some x),
     mkState w3 (log s ++ CallReadDir dir :: removals sys dir (pre ++ [e]))).
Proof.
  intros Hrd Hpre Hrm. unfold clearDir, bind at 1, ReadDir, call. rewrite Hrd.
  rewrite (clearDirLoop_app dir pre (e :: post) _ _ w2 Hpre).
  simpl. unfold bind, RemoveAll, call. simpl. rewrite Hrm.
  unfold removals. rewrite map_app, <- !app_assoc. reflexivity.
Qed.

End Clear.

(** ** The writable-layer locator *)

Lemma substring_all (s : string) : String.substring 0 (String.length s) s = s.
Proof. induction s as [|c s IH]; simpl; [reflexivity | now rewrite IH]. Qed.

Lemma trim_prefix_prefix (p s : string) :
  Strings.trim_prefix p s
  = if String.prefix p s
    then Some (String.substring (String.length p) (String.length s - String.length p) s)
    else None.
Proof.
  revert s. induction p as [|c p IH]; intros s.
  - simpl. destruct s as [|c' s']; simpl.
    + reflexivity.
    + now rewrite substring_all.
  - destruct s as [|c' s']; simpl; [reflexivity|].
    destruct (Ascii.eqb_spec c c') as [->|Hne].
    + destruct (ascii_dec c' c') as [_|Hn]; [apply IH | congruence].
    + destruct (ascii_dec c c') as [He|_]; [congruence | reflexivity].
Qed.

Lemma upperdirOption_find (options : list string) :
  upperdirOption options = Spec.suffix <$> List.find Spec.isUpperdir options.
Proof.
  induction options as [|opt rest IH]; [reflexivity|].
  simpl. unfold Strings.CutPrefix, Spec.isUpperdir.
  rewrite trim_prefix_prefix.
  destruct (String.prefix "upperdir=" opt); [reflexivity | apply IH].
Qed.

Lemma find_existsb {A} (f : A -> bool) (l : list A) :
  existsb f l = bool_decide (is_Some (List.find f l)).
Proof.
  induction l as [|a l IH]; [reflexivity|].
  simpl. destruct (f a); [reflexivity | apply IH].
Qed.

Lemma writableDirLoop_find (mounts : list Mount) :
  writableDirLoop mounts = Spec.writablePath <$> List.find Spec.qualifies mounts.
Proof.
  induction mounts as [|m rest IH]; [reflexivity|].
  simpl. unfold Spec.qualifies, Spec.writablePath.
  rewrite upperdirOption_find, find_existsb.
  destruct (String.eqb (m_Type m) "overlay") eqn:Ho; simpl.
  - destruct (List.find Spec.isUpperdir (m_Options m)) eqn:Hf; simpl.
    + now rewrite Ho, Hf.
    + apply String.eqb_eq in Ho. rewrite Ho. simpl. apply IH.
  - destruct (String.eqb (m_Type m) "bind"); simpl; [now rewrite Ho | apply IH].
Qed.

Lemma Join_concat (elems : list string) (sep : string) :
  Strings.Join elems sep = String.concat sep elems.
Proof.
  induction elems as [|x rest IH]; [reflexivity|].
  simpl. destruct rest; [reflexivity | now rewrite IH].
Qed.

(** C4. [getWritableDir] returns what the first qualifying entry of the
    list gives (the suffix of its first [upperdir=] option for an overlay
    mount, its source for a bind mount); when no entry qualifies,
    the empty list included, it returns an error whose message holds the
    types of all the mounts, separated by commas. *)
Theorem C4_getWritableDir_first_qualifying (mounts : list Mount) :
  match List.find Spec.qualifies mounts with
  | Some m => getWritableDir mounts = (Spec.writablePath m, None)
  | None =>
      exists e,
        getWritableDir mounts = ("", Some e) /\
        Error e = "no writable directory found in mounts (types: "
                  +:+ Spec.typesSeen mounts +:+ ")" /\
        contains (Error e) (Spec.typesSeen mounts)
  end.
Proof.
  unfold getWritableDir. rewrite writableDirLoop_find.
  destruct (List.find Spec.qualifies mounts) as [m|]; simpl; [reflexivity|].
  eexists. split; [reflexivity|].
  unfold joinMountTypes, Spec.typesSeen. rewrite Join_concat. simpl.
  split; [reflexivity|].
  exists "no writable directory found in mounts (types: ", ")". reflexivity.
Qed.

Example getWritableDir_overlay :
  getWritableDir
    [ mkMount "proc" "proc" [];
      mkMount "overlay" "overlay" ["lowerdir=/l1:/l2"];
      mkMount "overlay" "overlay"
              ["workdir=/w"; "upperdir=/snap/7/fs"; "upperdir=/other"; "lowerdir=/l"];
      mkMount "bind" "/b" ["rw"] ]
  = ("/snap/7/fs", None).
Proof. reflexivity. Qed.

Example getWritableDir_none :
  getWritableDir [mkMount "tmpfs" "tmpfs" []; mkMount "overlay" "overlay" ["lowerdir=/l"]]
  = ("", Some (errorString
                 "no writable directory found in mounts (types: tmpfs, overlay)")).
Proof. reflexivity. Qed.

Example getWritableDir_empty :
  getWritableDir []
  = ("", Some (errorString "no writable directory found in mounts (types: )")).
Proof. reflexivity. Qed.

(** ** The calls of a clone on the store *)

Lemma storeCalls_app (l1 l2 : list Call) :
  storeCalls (l1 ++ l2) = (storeCalls l1 ++ storeCalls l2)%list.
Proof. apply List.filter_app. Qed.

Lemma storeCalls_none (l : list Call) :
  Forall (fun c => isStoreCall c = false) l -> storeCalls l = [].
Proof.
  induction 1 as [|c l Hc _ IH]; [reflexivity|].
  unfold storeCalls in *. simpl. now rewrite Hc.
Qed.

Lemma In_storeCalls (c : Call) (l : list Call) :
  In c l -> isStoreCall c = true -> In c (storeCalls l).
Proof. intros. apply List.filter_In. auto. Qed.

Section Clone.
Context {W : Type} (inner : Snapshotter W) (sys : Sys W).

Lemma logs_clearDir (P : Call -> Prop) (dir : string) :
  P (CallReadDir dir) -> (forall p, P (CallRemoveAll p)) ->
  logs P (clearDir sys dir).
Proof.
  intros Hrd Hrm. unfold clearDir, ReadDir.
  apply logs_bind; [apply logs_call, Hrd|]. intros [entries [e|]].
  - destruct (IsNotExist e); apply logs_ret.
  - induction entries as [|e rest IH]; simpl; [apply logs_ret|].
    apply logs_bind; [apply logs_call, Hrm|].
    intros [x|]; [apply logs_ret | apply IH].
Qed.

Lemma copyCall_not_store (dstDir : string) (c : Call) :
  copyCall sys dstDir c -> isStoreCall c = false.
Proof. destruct c; simpl; tauto. Qed.

Lemma logs_copyWritableLayer (fuel : nat) (srcMounts dstMounts : list Mount) :
  logs (fun c => isStoreCall c = false)
       (copyWritableLayer sys fuel srcMounts dstMounts).
Proof.
  unfold copyWritableLayer.
  destruct (getWritableDir srcMounts) as [srcDir [e|]]; [apply logs_ret|].
  destruct (getWritableDir dstMounts) as [dstDir [e|]]; [apply logs_ret|].
  apply logs_bind; [apply logs_clearDir; reflexivity|].
  intros [e|]; [apply logs_ret|].
  eapply logs_weaken; [apply copyCall_not_store | apply logs_copyDir].
Qed.

(** The calls of [clonePrepare] on the store are, in this order and as far
    as it gets: [Stat] and [Mounts] of the source, [Prepare] of the
    destination on the parent that [Stat] gave and with the options of
    [withoutLabel], [Remove] of the destination. *)
Lemma clonePrepare_storeCalls (fuel : nat) (key sourceKey : string)
    (opts : list Opt) (s : State W) :
  exists l,
    log (snd (clonePrepare inner sys fuel key sourceKey opts s)) = (log s ++ l)%list /\
    storeCalls l `prefix_of`
      [ CallStat sourceKey; CallMounts sourceKey;
        CallPrepare key (i_Parent (fst (fst (sn_Stat inner sourceKey (world s)))))
                    (withoutLabel opts LabelCloneSource);
        CallRemove key ].
Proof.
  unfold clonePrepare, bind, Stat, Mounts, innerPrepare, Remove, call.
  destruct (sn_Stat inner sourceKey (world s)) as [[si [e|]] w1]; simpl.
  { exists [CallStat sourceKey]. split; [reflexivity|]. simpl. eexists; reflexivity. }
  destruct (sn_Mounts inner sourceKey w1) as [[sourceMounts [e|]] w2]; simpl.
  { exists [CallStat sourceKey; CallMounts sourceKey].
    rewrite <- app_assoc. split; [reflexivity|]. eexists; reflexivity. }
  destruct (sn_Prepare inner key (i_Parent si) (withoutLabel opts LabelCloneSource) w2)
    as [[mounts [e|]] w3]; simpl.
  { eexists [_; _; _]. rewrite <- !app_assoc. split; [reflexivity|].
    eexists; reflexivity. }
  match goal with
  | |- context [copyWritableLayer sys fuel sourceMounts mounts ?s3] =>
      destruct (logs_copyWritableLayer fuel sourceMounts mounts s3) as (l & Hl & Hfs);
      destruct (copyWritableLayer sys fuel sourceMounts mounts s3) as [[[e|]| |] s4]
  end; simpl in Hl; pose proof (storeCalls_none l Hfs) as Hnone.
  - destruct (sn_Remove inner key (world s4)) as [[re|] w5]; simpl;
      exists ([CallStat sourceKey; CallMounts sourceKey;
               CallPrepare key (i_Parent si) (withoutLabel opts LabelCloneSource)]
              ++ l ++ [CallRemove key])%list;
      (split; [rewrite Hl, <- !app_assoc; reflexivity|]);
      rewrite !storeCalls_app, Hnone; simpl; reflexivity.
  - exists ([CallStat sourceKey; CallMounts sourceKey;
             CallPrepare key (i_Parent si) (withoutLabel opts LabelCloneSource)]
            ++ l)%list.
    split; [simpl; rewrite Hl, <- !app_assoc; reflexivity|].
    rewrite storeCalls_app, Hnone. simpl. eexists; reflexivity.
  - exists ([CallStat sourceKey; CallMounts sourceKey;
             CallPrepare key (i_Parent si) (withoutLabel opts LabelCloneSource)]
            ++ l)%list.
    split; [simpl; rewrite Hl, <- !app_assoc; reflexivity|].
    rewrite storeCalls_app, Hnone. simpl. eexists; reflexivity.
  - exists ([CallStat sourceKey; CallMounts sourceKey;
             CallPrepare key (i_Parent si) (withoutLabel opts LabelCloneSource)]
            ++ l)%list.
    split; [simpl; rewrite Hl, <- !app_assoc; reflexivity|].
    rewrite storeCalls_app, Hnone. simpl. eexists; reflexivity.
Qed.

End Clone.

(** ** The claims about [Prepare] and [clonePrepare] *)

Section Claims.
Context {W : Type} (inner : Snapshotter W) (sys : Sys W).

Lemma Prepare_clone (fuel : nat) (key parent : string) (opts : list Opt)
    (info : Info) (sourceKey : string) :
  applyOpts opts Info_zero = (info, None) ->
  i_Labels info !! LabelCloneSource = Some sourceKey ->
  Prepare inner sys fuel key parent opts = clonePrepare inner sys fuel key sourceKey opts.
Proof. intros Ho Hl. unfold Prepare. now rewrite Ho, Hl. Qed.

Lemma prefix_of_In {A} (x : A) (l1 l2 : list A) :
  l1 `prefix_of` l2 -> In x l1 -> In x l2.
Proof. intros [k ->] H. apply in_or_app. auto. Qed.

Lemma clone_Prepare_call (fuel : nat) (key parent : string) (opts : list Opt)
    (info : Info) (sourceKey : string) (s : State W) (k p : string) (o : list Opt) :
  applyOpts opts Info_zero = (info, None) ->
  i_Labels info !! LabelCloneSource = Some sourceKey ->
  In (CallPrepare k p o) (calls (Prepare inner sys fuel key parent opts) s) ->
  k = key /\
  p = i_Parent (fst (fst (sn_Stat inner sourceKey (world s)))) /\
  o = withoutLabel opts LabelCloneSource.
Proof.
  intros Ho Hl Hin. rewrite (Prepare_clone _ _ _ _ _ _ Ho Hl) in Hin.
  destruct (clonePrepare_storeCalls inner sys fuel key sourceKey opts s)
    as (l & Hlog & Hpre).
  rewrite (calls_of_log _ _ _ Hlog) in Hin.
  pose proof (In_storeCalls _ _ Hin eq_refl) as Hsc.
  apply (prefix_of_In _ _ _ Hpre) in Hsc.
  simpl in Hsc. destruct Hsc as [H|[H|[H|[H|[]]]]]; try discriminate H.
  injection H as -> -> ->. auto.
Qed.

(** Once [Stat] and [Mounts] of the source have succeeded, the run goes on
    with the store's [Prepare] of the destination. *)
Lemma clonePrepare_calls_begin (fuel : nat) (key sourceKey : string) (opts : list Opt)
    (s : State W) (si : Info) (w1 : W) (sourceMounts : list Mount) (w2 : W) :
  sn_Stat inner sourceKey (world s) = ((si, None), w1) ->
  sn_Mounts inner sourceKey w1 = ((sourceMounts, None), w2) ->
  exists rest,
    calls (clonePrepare inner sys fuel key sourceKey opts) s
    = CallStat sourceKey :: CallMounts sourceKey
      :: CallPrepare key (i_Parent si) (withoutLabel opts LabelCloneSource) :: rest.
Proof.
  intros Hst Hmo.
    set (P := CallPrepare key (i_Parent si) (withoutLabel opts LabelCloneSource)).
    assert (Hrest : logs (fun _ => True)
              (do err <- copyWritableLayer sys fuel sourceMounts
                           (fst (fst (sn_Prepare inner key (i_Parent si)
                              (withoutLabel opts LabelCloneSource) w2))) in
               match err with
               | Some e =>
                   do removeErr <- Remove inner key in
                   match removeErr with
                   | Some re =>
                       ret (W:=W) (@nil Mount, Some (Errorf_w "copy writable layer: " e
                                     (" (cleanup also failed: " +:+ Error re +:+ ")")))
                   | None =>
                       ret ([], Some (Errorf_w ("copy writable layer from "
                                       +:+ fmt_q sys sourceKey +:+ " to "
                                       +:+ fmt_q sys key +:+ ": ") e ""))
                   end
               | None =>
                   ret (fst (fst (sn_Prepare inner key (i_Parent si)
                                    (withoutLabel opts LabelCloneSource) w2)), None)
               end)).
    { apply logs_bind.
      - eapply logs_weaken; [|apply logs_copyWritableLayer]. auto.
      - intros [e|]; [|apply logs_ret]. unfold Remove.
        apply logs_bind; [apply logs_call; exact I|].
        intros [re|]; apply logs_ret. }
    destruct (sn_Prepare inner key (i_Parent si) (withoutLabel opts LabelCloneSource) w2)
      as [[mounts [e|]] w3] eqn:Hpr; simpl in Hrest.
    + exists []. apply calls_of_log.
      unfold clonePrepare, bind, Stat, Mounts, innerPrepare, call.
      rewrite Hst. simpl. rewrite Hmo. simpl. rewrite Hpr. simpl.
      rewrite <- !app_assoc. reflexivity.
    + destruct (Hrest (mkState w3 (log s ++ [CallStat sourceKey; CallMounts sourceKey; P])))
        as (l & Hlog & _).
      exists l. apply calls_of_log.
      unfold clonePrepare, bind at 1 2 3, Stat, Mounts, innerPrepare, call.
      rewrite Hst. simpl. rewrite Hmo. simpl. rewrite Hpr. simpl.
      rewrite <- ?app_assoc. simpl.
      etrans; [apply Hlog|]. simpl. rewrite <- app_assoc. reflexivity.
Qed.

(** C1. In a prepare whose resolved labels hold the clone directive the
    parent argument plays no part: the run is the same for every value of
    it; every [Prepare] call on the store is for the destination key, on
    the parent that [Stat] of the source gave, with the options of
    [withoutLabel]; and that call is made as soon as [Stat] and [Mounts] of
    the source succeed. *)
Theorem C1_clone_prepares_on_source_parent (fuel : nat) (key parent : string)
    (opts : list Opt) (info : Info) (sourceKey : string) (s : State W) :
  applyOpts opts Info_zero = (info, None) ->
  i_Labels info !! LabelCloneSource = Some sourceKey ->
  (forall parent',
      Prepare inner sys fuel key parent' opts s = Prepare inner sys fuel key parent opts s) /\
  (forall k p o,
      In (CallPrepare k p o) (calls (Prepare inner sys fuel key parent opts) s) ->
      k = key /\
      p = i_Parent (fst (fst (sn_Stat inner sourceKey (world s)))) /\
      o = withoutLabel opts LabelCloneSource) /\
  (forall si w1 sourceMounts w2,
      sn_Stat inner sourceKey (world s) = ((si, None), w1) ->
      sn_Mounts inner sourceKey w1 = ((sourceMounts, None), w2) ->
      exists rest,
        calls (Prepare inner sys fuel key parent opts) s
        = CallStat sourceKey :: CallMounts sourceKey
          :: CallPrepare key (i_Parent si) (withoutLabel opts LabelCloneSource) :: rest).
Proof.
  intros Ho Hl. split; [|split].
  - intros parent'. now rewrite !(Prepare_clone _ _ _ _ _ _ Ho Hl).
  - intros k p o Hin. exact (clone_Prepare_call fuel key parent opts info sourceKey s k p o Ho Hl Hin).
  - intros si w1 sourceMounts w2 Hst Hmo.
    rewrite (Prepare_clone _ _ _ _ _ _ Ho Hl).
    exact (clonePrepare_calls_begin fuel key sourceKey opts s si w1 sourceMounts w2
             Hst Hmo).
Qed.

(** C2. A prepare whose resolved labels lack the clone directive is the
    store's prepare on the same key, parent and options: it returns the
    store's mounts and error as they are, leaves the world as the store
    left it, and makes no other call. *)
Theorem C2_pure_delegation (fuel : nat) (key parent : string) (opts : list Opt)
    (info : Info) (s : State W) :
  applyOpts opts Info_zero = (info, None) ->
  i_Labels info !! LabelCloneSource = None ->
  Prepare inner sys fuel key parent opts s
  = (Returns (fst (sn_Prepare inner key parent opts (world s))),
     mkState (snd (sn_Prepare inner key parent opts (world s)))
             (log s ++ [CallPrepare key parent opts])) /\
  calls (Prepare inner sys fuel key parent opts) s = [CallPrepare key parent opts].
Proof.
  intros Ho Hl.
  assert (Hrun : Prepare inner sys fuel key parent opts s
    = (Returns (fst (sn_Prepare inner key parent opts (world s))),
       mkState (snd (sn_Prepare inner key parent opts (world s)))
               (log s ++ [CallPrepare key parent opts]))).
  { unfold Prepare. rewrite Ho, Hl. unfold innerPrepare, call.
    destruct (sn_Prepare inner key parent opts (world s)); reflexivity. }
  split; [exact Hrun|].
  apply calls_of_log. now rewrite Hrun.
Qed.

(** C3. The options of every [Prepare] call that a clone makes on the
    store run the caller's options in order and then delete the clone
    directive: whatever info the store starts from, if they succeed the
    info they leave has no clone-source label, whatever the caller's
    options put there, and its other labels are the ones the caller's
    options left; if one of the caller's options fails, they fail with its
    error. *)
Theorem C3_directive_not_persisted (fuel : nat) (key parent : string)
    (opts : list Opt) (info : Info) (sourceKey : string) (s : State W)
    (k p : string) (o : list Opt) :
  applyOpts opts Info_zero = (info, None) ->
  i_Labels info !! LabelCloneSource = Some sourceKey ->
  In (CallPrepare k p o) (calls (Prepare inner sys fuel key parent opts) s) ->
  forall base : Info,
    applyOpts o base
    = match applyOpts opts base with
      | (info', Some e) => (info', Some e)
      | (info', None) => (deleteLabel LabelCloneSource info', None)
      end /\
    (snd (applyOpts o base) = None ->
     i_Labels (fst (applyOpts o base)) !! LabelCloneSource = None /\
     forall l : string, l <> LabelCloneSource ->
       i_Labels (fst (applyOpts o base)) !! l
       = i_Labels (fst (applyOpts opts base)) !! l).
Proof.
  intros Ho Hl Hin base.
  destruct (clone_Prepare_call fuel key parent opts info sourceKey s k p o Ho Hl Hin)
    as (_ & _ & ->).
  assert (Hrun : applyOpts (withoutLabel opts LabelCloneSource) base
    = match applyOpts opts base with
      | (info', Some e) => (info', Some e)
      | (info', None) => (deleteLabel LabelCloneSource info', None)
      end).
  { unfold withoutLabel. simpl.
    destruct (applyOpts opts base) as [info' [e|]]; reflexivity. }
  split; [exact Hrun|].
  rewrite Hrun. destruct (applyOpts opts base) as [info' [e|]]; simpl; [discriminate|].
  intros _. split.
  - apply lookup_delete_eq.
  - intros l Hne. apply lookup_delete_ne. congruence.
Qed.

(** C5. When [Stat] of the source fails, [clonePrepare] returns an error
    that wraps the failure of [Stat] (so it is a not-found error exactly
    when that is), and [Stat] is the only call it makes: no [Prepare], no
    [Remove], nothing on the file system. *)
Theorem C5_missing_source (fuel : nat) (key sourceKey : string) (opts : list Opt)
    (s : State W) (si : Info) (e : error) (w1 : W) :
  sn_Stat inner sourceKey (world s) = ((si, Some e), w1) ->
  exists err,
    clonePrepare inner sys fuel key sourceKey opts s
    = (Returns ([], Some err), mkState w1 (log s ++ [CallStat sourceKey])) /\
    err = Errorf_w ("stat source snapshot " +:+ fmt_q sys sourceKey +:+ ": ") e "" /\
    Unwrap err = Some e /\
    IsNotFound err = IsNotFound e /\
    calls (clonePrepare inner sys fuel key sourceKey opts) s = [CallStat sourceKey] /\
    forallb (fun c => negb (mutatesStore c))
            (calls (clonePrepare inner sys fuel key sourceKey opts) s) = true.
Proof.
  intros Hst.
  assert (Hrun : clonePrepare inner sys fuel key sourceKey opts s
    = (Returns ([], Some (Errorf_w ("stat source snapshot " +:+ fmt_q sys sourceKey
                                    +:+ ": ") e "")),
       mkState w1 (log s ++ [CallStat sourceKey]))).
  { unfold clonePrepare, bind, Stat, call. now rewrite Hst. }
  assert (Hcalls : calls (clonePrepare inner sys fuel key sourceKey opts) s
                   = [CallStat sourceKey]).
  { apply calls_of_log. now rewrite Hrun. }
  eexists. split; [exact Hrun|]. rewrite Hcalls. repeat split; reflexivity.
Qed.

(** C10. The clone path is taken whenever the resolved labels hold the
    clone-source key, whatever its value, the empty string included: the
    run is [clonePrepare] with that value as the source key, and its
    first call is [Stat] of that value, not the store's [Prepare]. *)
Theorem C10_presence_not_value (fuel : nat) (key parent : string) (opts : list Opt)
    (info : Info) (v : string) (s : State W) :
  applyOpts opts Info_zero = (info, None) ->
  i_Labels info !! LabelCloneSource = Some v ->
  Prepare inner sys fuel key parent opts s = clonePrepare inner sys fuel key v opts s /\
  exists rest, calls (Prepare inner sys fuel key parent opts) s = CallStat v :: rest.
Proof.
  intros Ho Hl. rewrite (Prepare_clone _ _ _ _ _ _ Ho Hl). split; [reflexivity|].
  destruct (clonePrepare_storeCalls inner sys fuel key v opts s) as (l & Hlog & _).
  assert (Hfirst : exists rest, l = CallStat v :: rest).
  { revert Hlog. unfold clonePrepare, bind at 1, Stat, call.
    destruct (sn_Stat inner v (world s)) as [[si [e|]] w1]; simpl.
    - intros H. apply app_inv_head in H. subst l. eauto.
    - intros H. revert H.
      match goal with
      | |- log (snd (?m ?s1)) = _ -> _ =>
          assert (Hm : exists l1, log (snd (m s1)) = (log s1 ++ l1)%list)
      end.
      { unfold Mounts, innerPrepare, Remove.
        match goal with
        | |- exists l1, log (snd (?m ?s1)) = _ =>
            assert (Hlogs : logs (fun _ => True) m); [|destruct (Hlogs s1) as (l1 & ? & _); eauto]
        end.
        apply logs_bind; [apply logs_call; exact I|]. intros [sourceMounts [e|]];
          [apply logs_ret|].
        apply logs_bind; [apply logs_call; exact I|]. intros [mounts [e|]];
          [apply logs_ret|].
        apply logs_bind.
        { eapply logs_weaken; [|apply logs_copyWritableLayer]. auto. }
        intros [e|]; [|apply logs_ret].
        apply logs_bind; [apply logs_call; exact I|]. intros [re|]; apply logs_ret. }
      destruct Hm as (l1 & Hm). rewrite Hm. simpl. rewrite <- app_assoc.
      intros H. apply app_inv_head in H. subst l. simpl. eauto. }
  destruct Hfirst as (rest & ->). exists rest. apply calls_of_log. exact Hlog.
Qed.

Lemma contains_Errorf_w (prefix : string) (e : error) (suffix : string) :
  contains (Error (Errorf_w prefix e suffix)) (Error e).
Proof. exists prefix, suffix. reflexivity. Qed.

(** What [clonePrepare] does once the store has prepared the destination
    and the copy of the writable layer has failed. *)
Lemma clonePrepare_rollback (fuel : nat) (key sourceKey : string) (opts : list Opt)
    (s : State W) (si : Info) (w1 : W) (sourceMounts : list Mount) (w2 : W)
    (mounts : list Mount) (w3 : W) (e : error) (s4 : State W) :
  sn_Stat inner sourceKey (world s) = ((si, None), w1) ->
  sn_Mounts inner sourceKey w1 = ((sourceMounts, None), w2) ->
  sn_Prepare inner key (i_Parent si) (withoutLabel opts LabelCloneSource) w2
  = ((mounts, None), w3) ->
  copyWritableLayer sys fuel sourceMounts mounts
    (mkState w3 (log s ++ [CallStat sourceKey; CallMounts sourceKey;
                           CallPrepare key (i_Parent si)
                                       (withoutLabel opts LabelCloneSource)]))
  = (Returns (Some e), s4) ->
  clonePrepare inner sys fuel key sourceKey opts s
  = (Returns
       ([], Some
          match fst (sn_Remove inner key (world s4)) with
          | Some re =>
              Errorf_w "copy writable layer: " e
                       (" (cleanup also failed: " +:+ Error re +:+ ")")
          | None =>
              Errorf_w ("copy writable layer from " +:+ fmt_q sys sourceKey
                        +:+ " to " +:+ fmt_q sys key +:+ ": ") e ""
          end),
     mkState (snd (sn_Remove inner key (world s4))) (log s4 ++ [CallRemove key])).
Proof.
  intros Hst Hmo Hpr Hcp.
  unfold clonePrepare, bind, Stat, Mounts, innerPrepare, Remove, call.
  rewrite Hst. simpl. rewrite Hmo. simpl. rewrite Hpr. simpl.
  rewrite <- !app_assoc. simpl. rewrite Hcp.
  destruct (sn_Remove inner key (world s4)) as [[re|] w5]; reflexivity.
Qed.

(** C6. When the store has prepared the destination and the copy of the
    writable layer then fails with [e], [clonePrepare] calls the store's
    [Remove] on the destination key.  If that succeeds, the error returned
    wraps [e] alone; if it fails with [re], the error returned wraps [e]
    and its message holds the messages of both [e] and [re]. *)
Theorem C6_rollback_on_copy_failure (fuel : nat) (key sourceKey : string)
    (opts : list Opt) (s : State W) (si : Info) (w1 : W)
    (sourceMounts : list Mount) (w2 : W) (mounts : list Mount) (w3 : W)
    (e : error) (s4 : State W) :
  sn_Stat inner sourceKey (world s) = ((si, None), w1) ->
  sn_Mounts inner sourceKey w1 = ((sourceMounts, None), w2) ->
  sn_Prepare inner key (i_Parent si) (withoutLabel opts LabelCloneSource) w2
  = ((mounts, None), w3) ->
  copyWritableLayer sys fuel sourceMounts mounts
    (mkState w3 (log s ++ [CallStat sourceKey; CallMounts sourceKey;
                           CallPrepare key (i_Parent si)
                                       (withoutLabel opts LabelCloneSource)]))
  = (Returns (Some e), s4) ->
  exists err,
    clonePrepare inner sys fuel key sourceKey opts s
    = (Returns ([], Some err),
       mkState (snd (sn_Remove inner key (world s4))) (log s4 ++ [CallRemove key])) /\
    Unwrap err = Some e /\
    match fst (sn_Remove inner key (world s4)) with
    | None =>
        Error err = "copy writable layer from " +:+ fmt_q sys sourceKey +:+ " to "
                    +:+ fmt_q sys key +:+ ": " +:+ Error e
    | Some re =>
        Error err = "copy writable layer: " +:+ Error e
                    +:+ " (cleanup also failed: " +:+ Error re +:+ ")" /\
        contains (Error err) (Error e) /\ contains (Error err) (Error re)
    end.
Proof.
  intros Hst Hmo Hpr Hcp.
  eexists. split; [exact (clonePrepare_rollback _ _ _ _ _ _ _ _ _ _ _ _ _ Hst Hmo Hpr Hcp)|].
  destruct (fst (sn_Remove inner key (world s4))) as [re|].
  - split; [reflexivity|]. split; [reflexivity|]. split.
    + apply contains_Errorf_w.
    + exists ("copy writable layer: " +:+ Error e +:+ " (cleanup also failed: "), ")".
      unfold Errorf_w, Error at 1. now rewrite !append_assoc.
  - split; [reflexivity|].
    unfold Errorf_w, Error at 1. now rewrite append_nil_r, !append_assoc.
Qed.

(** [copyWritableLayer] when one of the two mount lists has no writable
    directory: it fails on the spot, for the source's list first. *)
Lemma copyWritableLayer_no_dir (fuel : nat) (srcMounts dstMounts : list Mount)
    (s : State W) :
  snd (getWritableDir srcMounts) <> None \/ snd (getWritableDir dstMounts) <> None ->
  exists e cause,
    copyWritableLayer sys fuel srcMounts dstMounts s = (Returns (Some e), s) /\
    Unwrap e = Some cause /\
    (snd (getWritableDir srcMounts) = Some cause \/
     snd (getWritableDir srcMounts) = None /\ snd (getWritableDir dstMounts) = Some cause).
Proof.
  intros H. unfold copyWritableLayer.
  destruct (getWritableDir srcMounts) as [srcDir [c|]]; simpl in *.
  - exists (Errorf_w "source: " c ""), c. auto.
  - destruct (getWritableDir dstMounts) as [dstDir [c|]]; simpl in *.
    + exists (Errorf_w "destination: " c ""), c. auto.
    + destruct H as [H|H]; congruence.
Qed.

(** C7, as the code has it.  When the source's or the destination's mount
    list has no writable directory, the clone fails after the store has
    prepared the destination, in both cases, and the wrapper then calls the
    store's [Remove] on the destination key; the source's list is looked at
    first, and nothing is done on the file system. *)
Theorem C7_unsupported_shape_fails_after_creation (fuel : nat)
    (key sourceKey : string) (opts : list Opt) (s : State W) (si : Info) (w1 : W)
    (sourceMounts : list Mount) (w2 : W) (mounts : list Mount) (w3 : W) :
  sn_Stat inner sourceKey (world s) = ((si, None), w1) ->
  sn_Mounts inner sourceKey w1 = ((sourceMounts, None), w2) ->
  sn_Prepare inner key (i_Parent si) (withoutLabel opts LabelCloneSource) w2
  = ((mounts, None), w3) ->
  snd (getWritableDir sourceMounts) <> None \/ snd (getWritableDir mounts) <> None ->
  exists err cause,
    fst (clonePrepare inner sys fuel key sourceKey opts s) = Returns ([], Some err) /\
    calls (clonePrepare inner sys fuel key sourceKey opts) s
    = [ CallStat sourceKey; CallMounts sourceKey;
        CallPrepare key (i_Parent si) (withoutLabel opts LabelCloneSource);
        CallRemove key ] /\
    wraps cause err /\
    (snd (getWritableDir sourceMounts) = Some cause \/
     snd (getWritableDir sourceMounts) = None /\ snd (getWritableDir mounts) = Some cause).
Proof.
  intros Hst Hmo Hpr Hshape.
  destruct (copyWritableLayer_no_dir fuel sourceMounts mounts
              (mkState w3 (log s ++ [CallStat sourceKey; CallMounts sourceKey;
                                     CallPrepare key (i_Parent si)
                                       (withoutLabel opts LabelCloneSource)])) Hshape)
    as (e & cause & Hcp & Hun & Hcause).
  pose proof (clonePrepare_rollback _ _ _ _ _ _ _ _ _ _ _ _ _ Hst Hmo Hpr Hcp) as Hrun.
  eexists. exists cause. split; [rewrite Hrun; reflexivity|].
  split; [apply calls_of_log; rewrite Hrun; simpl; rewrite <- app_assoc; reflexivity|].
  split; [|exact Hcause].
  destruct e as [| |msg e']; try discriminate Hun. injection Hun as ->.
  destruct (fst (sn_Remove inner key (world (mkState w3 _))));
    apply wraps_step, wraps_step, wraps_refl.
Qed.

End Claims.

(** ** A prepare that returns does so whatever the fuel above *)

Section PrepareFuel.
Context {W : Type} (inner : Snapshotter W) (sys : Sys W).

Lemma copyWritableLayer_more_fuel (n m : nat) (srcMounts dstMounts : list Mount)
    (s s' : State W) (r : option error) :
  copyWritableLayer sys n srcMounts dstMounts s = (Returns r, s') -> n <= m ->
  copyWritableLayer sys m srcMounts dstMounts s = (Returns r, s').
Proof.
  unfold copyWritableLayer. intros Hrun Hle.
  destruct (getWritableDir srcMounts) as [srcDir [e|]]; [exact Hrun|].
  destruct (getWritableDir dstMounts) as [dstDir [e|]]; [exact Hrun|].
  apply bind_Returns in Hrun as (err & s1 & Hclear & Hrun).
  apply bind_Returns. exists err, s1. split; [exact Hclear|].
  destruct err as [e|]; [exact Hrun|].
  exact (WalkDir_more_fuel sys _ n m _ _ _ _ Hrun Hle).
Qed.

Lemma Prepare_more_fuel (n m : nat) (key parent : string) (opts : list Opt)
    (s s' : State W) (r : list Mount * option error) :
  Prepare inner sys n key parent opts s = (Returns r, s') -> n <= m ->
  Prepare inner sys m key parent opts s = (Returns r, s').
Proof.
  unfold Prepare. intros Hrun Hle.
  destruct (applyOpts opts Info_zero) as [info [e|]]; [exact Hrun|].
  destruct (i_Labels info !! LabelCloneSource) as [sourceKey|]; [|exact Hrun].
  unfold clonePrepare in Hrun |- *.
  apply bind_Returns in Hrun as ([si err] & s1 & Hst & Hrun).
  apply bind_Returns. exists (si, err), s1. split; [exact Hst|].
  destruct err as [e|]; [exact Hrun|].
  apply bind_Returns in Hrun as ([sourceMounts err] & s2 & Hmo & Hrun).
  apply bind_Returns. exists (sourceMounts, err), s2. split; [exact Hmo|].
  destruct err as [e|]; [exact Hrun|].
  apply bind_Returns in Hrun as ([mounts err] & s3 & Hpr & Hrun).
  apply bind_Returns. exists (mounts, err), s3. split; [exact Hpr|].
  destruct err as [e|]; [exact Hrun|].
  apply bind_Returns in Hrun as (err & s4 & Hcp & Hrun).
  apply bind_Returns. exists err, s4.
  split; [exact (copyWritableLayer_more_fuel n m _ _ _ _ _ Hcp Hle) | exact Hrun].
Qed.

End PrepareFuel.

(** ** The claims about the replication *)

Section Replication.
Context {W : Type} (sys : Sys W).

Lemma In_removals_take (dir p : string) (n : nat) (entries : list (DirEntry W)) :
  In (CallRemoveAll p) (removals sys dir (take n entries)) ->
  exists e, In e entries /\ p = filepath_Join sys dir (de_Name e).
Proof.
  unfold removals. rewrite in_map_iff. intros (e & Heq & Hin).
  exists e. split.
  - rewrite <- (take_drop n entries). apply in_or_app. auto.
  - congruence.
Qed.

Lemma copyCall_not_RemoveAll (dstDir p : string) (l : list Call) :
  Forall (copyCall sys dstDir) l -> ~ In (CallRemoveAll p) l.
Proof.
  intros Hall Hin. rewrite Forall_forall in Hall.
  apply list_elem_of_In in Hin. exact (Hall _ Hin).
Qed.

(** The calls of a replication, whatever happens. *)
Lemma copyWritableLayer_calls (fuel : nat) (srcMounts dstMounts : list Mount)
    (srcDir dstDir : string) (s : State W)
    (entries : list (DirEntry W)) (err : option error) (w1 : W) :
  getWritableDir srcMounts = (srcDir, None) ->
  getWritableDir dstMounts = (dstDir, None) ->
  os_ReadDir sys dstDir (world s) = ((entries, err), w1) ->
  exists (n : nat) (copying : list Call),
    calls (copyWritableLayer sys fuel srcMounts dstMounts) s
    = (CallReadDir dstDir :: removals sys dstDir (take n entries) ++ copying)%list /\
    Forall (copyCall sys dstDir) copying /\
    (copying <> [] ->
     match err with
     | Some e => IsNotExist e = true
     | None => n = length entries /\ is_Some (removedAll sys dstDir entries w1)
     end) /\
    (forall p, In (CallRemoveAll p)
                  (calls (copyWritableLayer sys fuel srcMounts dstMounts) s) ->
               exists e, In e entries /\ p = filepath_Join sys dstDir (de_Name e)) /\
    ((forall e, In e entries -> filepath_Join sys dstDir (de_Name e) <> dstDir) ->
     ~ In (CallRemoveAll dstDir)
          (calls (copyWritableLayer sys fuel srcMounts dstMounts) s)) /\
    (forall e, err = Some e -> IsNotExist e = true ->
       clearDir sys dstDir s
       = (Returns None, mkState w1 (log s ++ [CallReadDir dstDir]))).
Proof.
  intros Hsrc Hdst Hrd.
  destruct (clearDir_run sys dstDir s entries err w1 Hrd) as (n & Hlog & Hres).
  assert (Hshape : exists copying,
    log (snd (copyWritableLayer sys fuel srcMounts dstMounts s))
    = (log s ++ CallReadDir dstDir :: removals sys dstDir (take n entries) ++ copying)%list /\
    Forall (copyCall sys dstDir) copying /\
    (copying <> [] ->
     match err with
     | Some e => IsNotExist e = true
     | None => n = length entries /\ is_Some (removedAll sys dstDir entries w1)
     end)).
  { unfold copyWritableLayer. rewrite Hsrc, Hdst. unfold bind.
    destruct (clearDir sys dstDir s) as [[[e|]| |] s1] eqn:Hclear; simpl in Hlog, Hres.
    - exists []. simpl. rewrite app_nil_r. split; [exact Hlog|].
      split; [constructor | congruence].
    - destruct (logs_copyDir sys fuel srcDir dstDir s1) as (l & Hl & Hall).
      exists l. rewrite Hl, Hlog, <- app_assoc. simpl.
      split; [reflexivity|]. split; [exact Hall|]. intros _.
      destruct err as [e|].
      + destruct Hres as [_ Hres]. destruct (IsNotExist e); [reflexivity | discriminate].
      + destruct Hres as [-> ->]. eauto.
    - exists []. simpl. rewrite app_nil_r. split; [exact Hlog|].
      split; [constructor | congruence].
    - exists []. simpl. rewrite app_nil_r. split; [exact Hlog|].
      split; [constructor | congruence]. }
  destruct Hshape as (copying & Hcalls & Hall & Hbegin).
  apply calls_of_log in Hcalls.
  assert (Hrm : forall p,
    In (CallRemoveAll p) (calls (copyWritableLayer sys fuel srcMounts dstMounts) s) ->
    exists e, In e entries /\ p = filepath_Join sys dstDir (de_Name e)).
  { intros p. rewrite Hcalls. intros [H|H]; [discriminate|].
    apply in_app_or in H. destruct H as [H|H].
    - eapply In_removals_take; eauto.
    - exfalso. eapply copyCall_not_RemoveAll; eauto. }
  exists n, copying. split; [exact Hcalls|]. split; [exact Hall|].
  split; [exact Hbegin|]. split; [exact Hrm|]. split.
  - intros Hjoin Hin. destruct (Hrm _ Hin) as (e & He & Heq).
    exact (Hjoin e He (eq_sym Heq)).
  - intros e -> Hne. destruct Hres as [_ Hres]. now rewrite Hne in Hres.
Qed.

(** C8. In a replication into [dstDir], with the listing of [dstDir]
    known:
    - when the listing succeeds and [os.RemoveAll] of every entry succeeds,
      all of these calls are made, in order, and only then the copy runs,
      from the world in which every child has been removed;
    - when one of them fails, the replication stops there with its error
      and copies nothing;
    - when [dstDir] does not exist, [clearDir] returns nil after the one
      listing and the copy runs;
    - when the listing fails otherwise, nothing is removed or copied.
    The copy, from any state, removes nothing and creates only at [dstDir]
    joined with a path other than [.]; so no call removes [dstDir] itself
    (as long as joining it with the name of an entry does not give
    [dstDir] back). *)
Theorem C8_clear_before_copy (fuel : nat) (srcMounts dstMounts : list Mount)
    (srcDir dstDir : string) (s : State W)
    (entries : list (DirEntry W)) (err : option error) (w1 : W) :
  getWritableDir srcMounts = (srcDir, None) ->
  getWritableDir dstMounts = (dstDir, None) ->
  os_ReadDir sys dstDir (world s) = ((entries, err), w1) ->
  (forall w2, err = None -> removedAll sys dstDir entries w1 = Some w2 ->
     copyWritableLayer sys fuel srcMounts dstMounts s
     = copyDir sys fuel srcDir dstDir
         (mkState w2 (log s ++ CallReadDir dstDir :: removals sys dstDir entries))) /\
  (err = None -> removedAll sys dstDir entries w1 = None ->
     exists pre e post x w2 w3,
       entries = (pre ++ e :: post)%list /\
       removedAll sys dstDir pre w1 = Some w2 /\
       os_RemoveAll sys (filepath_Join sys dstDir (de_Name e)) w2 = (Some x, w3) /\
       copyWritableLayer sys fuel srcMounts dstMounts s
       = (Returns (Some (Errorf_w "clear destination directory: " x "")),
          mkState w3 (log s ++ CallReadDir dstDir
                             :: removals sys dstDir (pre ++ [e])))) /\
  (forall e, err = Some e -> IsNotExist e = true ->
     clearDir sys dstDir s = (Returns None, mkState w1 (log s ++ [CallReadDir dstDir])) /\
     copyWritableLayer sys fuel srcMounts dstMounts s
     = copyDir sys fuel srcDir dstDir (mkState w1 (log s ++ [CallReadDir dstDir]))) /\
  (forall e, err = Some e -> IsNotExist e = false ->
     copyWritableLayer sys fuel srcMounts dstMounts s
     = (Returns (Some (Errorf_w "clear destination directory: " e "")),
        mkState w1 (log s ++ [CallReadDir dstDir]))) /\
  (forall s', Forall (copyCall sys dstDir) (calls (copyDir sys fuel srcDir dstDir) s')) /\
  exists (n : nat) (copying : list Call),
    calls (copyWritableLayer sys fuel srcMounts dstMounts) s
    = (CallReadDir dstDir :: removals sys dstDir (take n entries) ++ copying)%list /\
    Forall (copyCall sys dstDir) copying /\
    (copying <> [] ->
     match err with
     | Some e => IsNotExist e = true
     | None => n = length entries /\ is_Some (removedAll sys dstDir entries w1)
     end) /\
    (forall p, In (CallRemoveAll p)
                  (calls (copyWritableLayer sys fuel srcMounts dstMounts) s) ->
               exists e, In e entries /\ p = filepath_Join sys dstDir (de_Name e)) /\
    ((forall e, In e entries -> filepath_Join sys dstDir (de_Name e) <> dstDir) ->
     ~ In (CallRemoveAll dstDir)
          (calls (copyWritableLayer sys fuel srcMounts dstMounts) s)) /\
    (forall e, err = Some e -> IsNotExist e = true ->
       clearDir sys dstDir s
       = (Returns None, mkState w1 (log s ++ [CallReadDir dstDir]))).
Proof.
  intros Hsrc Hdst Hrd.
  assert (Hnotexist : forall e, err = Some e -> IsNotExist e = true ->
            clearDir sys dstDir s
            = (Returns None, mkState w1 (log s ++ [CallReadDir dstDir]))).
  { intros e -> Hne. unfold clearDir, bind, ReadDir, call. rewrite Hrd. simpl.
    now rewrite Hne. }
  split; [|split; [|split; [|split; [|split]]]].
  - intros w2 -> Hall. unfold copyWritableLayer. rewrite Hsrc, Hdst.
    unfold bind at 1. now rewrite (clearDir_all sys dstDir s entries w1 w2 Hrd Hall).
  - intros -> Hnone.
    destruct (removedAll_None sys dstDir entries w1 Hnone)
      as (pre & e & post & x & w2 & w3 & -> & Hpre & Hx).
    exists pre, e, post, x, w2, w3. repeat (split; [assumption || reflexivity|]).
    unfold copyWritableLayer. rewrite Hsrc, Hdst. unfold bind at 1.
    now rewrite (clearDir_first_failure sys dstDir pre post e s w1 w2 w3 x Hrd Hpre Hx).
  - intros e He Hne. split; [exact (Hnotexist e He Hne)|].
    unfold copyWritableLayer. rewrite Hsrc, Hdst. unfold bind at 1.
    now rewrite (Hnotexist e He Hne).
  - intros e -> Hne. unfold copyWritableLayer. rewrite Hsrc, Hdst.
    unfold clearDir, bind, ReadDir, call. rewrite Hrd. simpl. now rewrite Hne.
  - intros s'. apply logs_calls, logs_copyDir.
  - exact (copyWritableLayer_calls fuel srcMounts dstMounts srcDir dstDir s entries err w1
             Hsrc Hdst Hrd).
Qed.

(** The function of the copy on an entry that is a symbolic link. *)
Lemma copyDirFn_symlink (srcDir dstDir path rel : string) (d : DirEntry W)
    (s : State W) :
  filepath_Rel sys srcDir path = (rel, None) ->
  rel <> "." ->
  N.land (de_Type d) ModeSymlink <> 0%N ->
  match os_Readlink sys path (world s) with
  | ((target, None), w1) =>
      copyDirFn sys srcDir dstDir path (Some d) None s
      = (Returns (fst (os_Symlink sys target (filepath_Join sys dstDir rel) w1)),
         mkState (snd (os_Symlink sys target (filepath_Join sys dstDir rel) w1))
                 (log s ++ [CallReadlink path;
                            CallSymlink target (filepath_Join sys dstDir rel)]))
  | ((_, Some e), w1) =>
      copyDirFn sys srcDir dstDir path (Some d) None s
      = (Returns (Some e), mkState w1 (log s ++ [CallReadlink path]))
  end.
Proof.
  intros Hrel Hne Hlink. unfold copyDirFn. rewrite Hrel.
  destruct (String.eqb_spec rel ".") as [|_]; [contradiction|].
  destruct (N.eqb_spec (N.land (de_Type d) ModeSymlink) 0) as [|_]; [contradiction|].
  simpl. unfold copySymlink, bind, Readlink, Symlink, call.
  destruct (os_Readlink sys path (world s)) as [[target [e|]] w1]; simpl; [reflexivity|].
  destruct (os_Symlink sys target (filepath_Join sys dstDir rel) w1) as [r w2].
  simpl. rewrite <- app_assoc. reflexivity.
Qed.

Lemma bind_log_prefix {A B} (m : M W A) (k : A -> M W B) (s : State W) :
  (forall a, logs (fun _ => True) (k a)) ->
  exists l, log (snd (bind m k s)) = (log (snd (m s)) ++ l)%list.
Proof.
  intros Hk. unfold bind. destruct (m s) as [[a| |] s1]; simpl.
  - destruct (Hk a s1) as (l & Hl & _). eauto.
  - exists []. now rewrite app_nil_r.
  - exists []. now rewrite app_nil_r.
Qed.

Lemma bind_run {A B} (m : M W A) (k : A -> M W B) (s : State W) (a : A)
    (s1 : State W) :
  m s = (Returns a, s1) -> bind m k s = k a s1.
Proof. intros H. unfold bind. now rewrite H. Qed.

Section VisitLogs.
Context (fn : WalkDirFunc (W:=W)).
Hypothesis fn_logs : forall path d err, logs (fun _ => True) (fn path d err).

Lemma logs_rangeDirs (fuel : nat) (path : string) (dirs : list (DirEntry W)) :
  logs (fun _ => True) (rangeDirs sys fn fuel path dirs).
Proof.
  induction dirs as [|d1 rest IH]; [apply logs_ret|].
  change (logs (fun _ => True)
            (do err <- walkDir sys fuel (filepath_Join sys path (de_Name d1)) d1 fn in
             match err with
             | Some e => if isSkipDir e then ret None else ret (Some e)
             | None => rangeDirs sys fn fuel path rest
             end)).
  apply logs_bind; [apply logs_walkDir; auto|].
  intros [e|]; [destruct (isSkipDir e); apply logs_ret | exact IH].
Qed.

Lemma rangeDirs_Walked (fuel : nat) (path : string) (pre rest : list (DirEntry W))
    (s3 s4 : State W) :
  Walked sys fn fuel path pre s3 s4 ->
  rangeDirs sys fn fuel path (pre ++ rest) s3 = rangeDirs sys fn fuel path rest s4.
Proof.
  induction 1 as [s|d1 pre' s s1 s2 Hd1 _ IH]; [reflexivity|].
  change (bind (walkDir sys fuel (filepath_Join sys path (de_Name d1)) d1 fn)
               (fun err => match err with
                           | Some e => if isSkipDir e then ret None else ret (Some e)
                           | None => rangeDirs sys fn fuel path (pre' ++ rest)
                           end) s
          = rangeDirs sys fn fuel path rest s2).
  unfold bind. rewrite Hd1. exact IH.
Qed.

(** What the walk meets, it calls the function on, in the course of the
    run: the log of the walk goes on from the log that this call leaves. *)
Lemma Visits_log (fuel : nat) (path : string) (d : DirEntry W) (s : State W)
    (path' : string) (d' : DirEntry W) (s' : State W) :
  Visits sys fn fuel path d s path' d' s' ->
  exists l, log (snd (walkDir sys fuel path d fn s))
            = (log (snd (fn path' (Some d') None s')) ++ l)%list.
Proof.
  induction 1 as [fuel path d s
                 |fuel path d s s1 dirs err s2 s3 pre d1 post s4 path' d' s'
                    Hfn Hdir Hrd Hstop Hdirs Hpre _ IH].
  - change (walkDir sys (S fuel) path d fn s)
      with (bind (fn path (Some d) None)
              (fun err =>
                 match err with
                 | Some e => if isSkipDir e && de_IsDir d then ret None else ret (Some e)
                 | None =>
                     if negb (de_IsDir d) then ret None
                     else
                       do (dirs, err) <- ReadDir sys path in
                       do stop <-
                         match err with
                         | Some e =>
                             do err' <- fn path (Some d) (Some e) in
                             match err' with
                             | Some e' =>
                                 if isSkipDir e' && de_IsDir d then ret (Some None)
                                 else ret (Some (Some e'))
                             | None => ret None
                             end
                         | None => ret None
                         end in
                       match stop with
                       | Some r => ret r
                       | None => rangeDirs sys fn fuel path dirs
                       end
                 end) s).
    apply bind_log_prefix. intros [e|].
    { destruct (isSkipDir e && de_IsDir d); apply logs_ret. }
    destruct (negb (de_IsDir d)); [apply logs_ret|].
    apply logs_bind; [apply logs_call; exact I|]. intros [dirs err].
    apply logs_bind.
    { destruct err as [e|]; [|apply logs_ret].
      apply logs_bind; [apply fn_logs|]. intros [e'|]; [|apply logs_ret].
      destruct (isSkipDir e' && de_IsDir d); apply logs_ret. }
    intros [r|]; [apply logs_ret | apply logs_rangeDirs].
  - assert (Hrun : walkDir sys (S fuel) path d fn s
                   = rangeDirs sys fn fuel path (d1 :: post) s4).
    { change (walkDir sys (S fuel) path d fn s)
        with (bind (fn path (Some d) None)
                (fun err =>
                   match err with
                   | Some e => if isSkipDir e && de_IsDir d then ret None else ret (Some e)
                   | None =>
                       if negb (de_IsDir d) then ret None
                       else
                         do (dirs, err) <- ReadDir sys path in
                         do stop <-
                           match err with
                           | Some e =>
                               do err' <- fn path (Some d) (Some e) in
                               match err' with
                               | Some e' =>
                                   if isSkipDir e' && de_IsDir d then ret (Some None)
                                   else ret (Some (Some e'))
                               | None => ret None
                               end
                           | None => ret None
                           end in
                         match stop with
                         | Some r => ret r
                         | None => rangeDirs sys fn fuel path dirs
                         end
                   end) s).
      rewrite (bind_run _ _ _ _ _ Hfn). cbv beta iota. rewrite Hdir.
      change (negb true) with false. cbv iota.
      rewrite (bind_run _ _ _ _ _ Hrd). cbv beta iota.
      destruct err as [e|].
      - rewrite (bind_run _ (fun stop => match stop with
                                         | Some r => ret r
                                         | None => rangeDirs sys fn fuel path dirs
                                         end) s2 None s3).
        + rewrite Hdirs. apply rangeDirs_Walked, Hpre.
        + now rewrite (bind_run _ _ _ _ _ Hstop).
      - subst s3.
        rewrite (bind_run (ret None)
                   (fun stop => match stop with
                                | Some r => ret r
                                | None => rangeDirs sys fn fuel path dirs
                                end) s2 None s2 eq_refl).
        rewrite Hdirs. apply rangeDirs_Walked, Hpre. }
    rewrite Hrun. destruct IH as (l & Hl).
    change (rangeDirs sys fn fuel path (d1 :: post) s4)
      with (bind (walkDir sys fuel (filepath_Join sys path (de_Name d1)) d1 fn)
              (fun err => match err with
                          | Some e => if isSkipDir e then ret None else ret (Some e)
                          | None => rangeDirs sys fn fuel path post
                          end) s4).
    destruct (bind_log_prefix
                (walkDir sys fuel (filepath_Join sys path (de_Name d1)) d1 fn)
                (fun err => match err with
                            | Some e => if isSkipDir e then ret None else ret (Some e)
                            | None => rangeDirs sys fn fuel path post
                            end) s4) as (l2 & Hl2).
    { intros [e|]; [destruct (isSkipDir e); apply logs_ret | apply logs_rangeDirs]. }
    exists (l ++ l2)%list. now rewrite Hl2, Hl, app_assoc.
Qed.

End VisitLogs.

(** C9. In a copy of [srcDir] into [dstDir] whose root has been examined,
    for every symbolic link that the walk meets (at [path], in state [s'],
    with the relative path [rel], not the root): the function of the copy
    calls [os.Readlink] of [path] and then [os.Symlink] with the very
    string that [os.Readlink] returned as the target and [dstDir] joined
    with [rel] as the place, returns what [os.Symlink] returns, and makes
    no other call (nothing looks at the target, nothing is opened or
    copied); and these two calls are in the log of the whole copy, right
    after the calls made before the link was met. *)
Theorem C9_symlink_recreated (fuel : nat) (srcDir dstDir : string) (s : State W)
    (info : FileInfo) (w0 : W) (path rel : string) (d : DirEntry W) (s' : State W)
    (target : string) (rerr : option error) (w1 : W) :
  os_Lstat sys srcDir (world s) = ((info, None), w0) ->
  Visits sys (copyDirFn sys srcDir dstDir) fuel srcDir (FileInfoToDirEntry info)
         (mkState w0 (log s ++ [CallLstat srcDir])) path d s' ->
  filepath_Rel sys srcDir path = (rel, None) ->
  rel <> "." ->
  N.land (de_Type d) ModeSymlink <> 0%N ->
  os_Readlink sys path (world s') = ((target, rerr), w1) ->
  match rerr with
  | None =>
      copyDirFn sys srcDir dstDir path (Some d) None s'
      = (Returns (fst (os_Symlink sys target (filepath_Join sys dstDir rel) w1)),
         mkState (snd (os_Symlink sys target (filepath_Join sys dstDir rel) w1))
                 (log s' ++ [CallReadlink path;
                             CallSymlink target (filepath_Join sys dstDir rel)])) /\
      exists rest,
        log (snd (copyDir sys fuel srcDir dstDir s))
        = (log s' ++ CallReadlink path
                  :: CallSymlink target (filepath_Join sys dstDir rel) :: rest)%list
  | Some e =>
      copyDirFn sys srcDir dstDir path (Some d) None s'
      = (Returns (Some e), mkState w1 (log s' ++ [CallReadlink path])) /\
      exists rest,
        log (snd (copyDir sys fuel srcDir dstDir s))
        = (log s' ++ CallReadlink path :: rest)%list
  end.
Proof.
  intros Hls Hvisit Hrel Hne Hlink Hread.
  pose proof (copyDirFn_symlink srcDir dstDir path rel d s' Hrel Hne Hlink) as Hfn.
  rewrite Hread in Hfn.
  assert (Hlogs : forall p e x, logs (fun _ => True) (copyDirFn sys srcDir dstDir p e x)).
  { intros p e x. eapply logs_weaken; [|apply logs_copyDirFn]. auto. }
  destruct (Visits_log (copyDirFn sys srcDir dstDir) Hlogs _ _ _ _ _ _ _ Hvisit)
    as (l & Hl).
  assert (Hcopy : exists l2,
            log (snd (copyDir sys fuel srcDir dstDir s))
            = (log (snd (copyDirFn sys srcDir dstDir path (Some d) None s'))
               ++ l ++ l2)%list).
  { unfold copyDir, WalkDir. unfold bind at 1, Lstat, call. rewrite Hls.
    destruct (bind_log_prefix
                (walkDir sys fuel srcDir (FileInfoToDirEntry info)
                         (copyDirFn sys srcDir dstDir))
                (fun err => match err with
                            | Some e => if isSkipDir e || isSkipAll e then ret None
                                        else ret (Some e)
                            | None => ret None
                            end)
                (mkState w0 (log s ++ [CallLstat srcDir]))) as (l2 & Hl2).
    { intros [e|]; [destruct (isSkipDir e || isSkipAll e)|]; apply logs_ret. }
    exists l2. etrans; [exact Hl2|]. now rewrite Hl, app_assoc. }
  destruct Hcopy as (l2 & Hcopy).
  destruct rerr as [e|]; (split; [exact Hfn|]); rewrite Hcopy, Hfn; simpl;
    rewrite <- app_assoc; simpl; eauto.
Qed.

End Replication.

(** ** The claims on the store and file system in memory *)

Module Runs.
Import Mem.

(** A clone of [source] in [world0], asked for with a parent argument that
    names no snapshot: the store is called with the parent of [source]. *)
Lemma C1_witness :
  applyOpts (cloneOpts "source") Info_zero = (sourceLabels, None) /\
  i_Labels sourceLabels !! LabelCloneSource = Some "source" /\
  forall k p o,
    In (CallPrepare k p o)
       (calls (Prepare native sys 10 "clone" "ignored" (cloneOpts "source")) (start world0)) ->
    k = "clone" /\ p = "base" /\ o = withoutLabel (cloneOpts "source") LabelCloneSource.
Proof.
  assert (H1 : applyOpts (cloneOpts "source") Info_zero = (sourceLabels, None))
    by (vm_compute; reflexivity).
  assert (H2 : i_Labels sourceLabels !! LabelCloneSource = Some "source")
    by (vm_compute; reflexivity).
  split; [exact H1|]. split; [exact H2|].
  exact (proj1 (proj2 (C1_clone_prepares_on_source_parent native sys 10 "clone" "ignored"
                         (cloneOpts "source") sourceLabels "source" (start world0) H1 H2))).
Defined.

Lemma C2_witness :
  applyOpts [WithLabels {[ "app" := "db" ]}] Info_zero = (appLabels, None) /\
  i_Labels appLabels !! LabelCloneSource = None /\
  calls (Prepare native sys 10 "layer2" "base" [WithLabels {[ "app" := "db" ]}])
        (start world0)
  = [CallPrepare "layer2" "base" [WithLabels {[ "app" := "db" ]}]].
Proof.
  assert (H1 : applyOpts [WithLabels {[ "app" := "db" ]}] Info_zero = (appLabels, None))
    by (vm_compute; reflexivity).
  assert (H2 : i_Labels appLabels !! LabelCloneSource = None)
    by (vm_compute; reflexivity).
  split; [exact H1|]. split; [exact H2|].
  exact (proj2 (C2_pure_delegation native sys 10 "layer2" "base"
                  [WithLabels {[ "app" := "db" ]}] appLabels (start world0) H1 H2)).
Defined.

Lemma C3_witness :
  let opts := [WithLabels twoLabels] in
  let stored := fst (applyOpts (withoutLabel opts LabelCloneSource)
                               (mkInfo KindActive "clone" "base" ∅)) in
  i_Labels stored !! LabelCloneSource = None /\
  i_Labels stored !! "app" = Some "db".
Proof.
  intros opts stored.
  assert (H1 : applyOpts opts Info_zero = (mkInfo KindUnknown "" "" twoLabels, None))
    by (vm_compute; reflexivity).
  assert (H2 : i_Labels (mkInfo KindUnknown "" "" twoLabels) !! LabelCloneSource
               = Some "source")
    by (vm_compute; reflexivity).
  assert (H3 : In (CallPrepare "clone" "base" (withoutLabel opts LabelCloneSource))
                  (calls (Prepare native sys 10 "clone" "" opts) (start world0))).
  { rewrite (Prepare_clone native sys 10 "clone" "" opts _ "source" H1 H2).
    destruct (clonePrepare_calls_begin native sys 10 "clone" "source" opts (start world0)
                (mkInfo KindActive "source" "base" ∅) world0 (bindMount "source") world0
                eq_refl eq_refl) as (rest & ->).
    right; right; left; reflexivity. }
  destruct (C3_directive_not_persisted native sys 10 "clone" "" opts _ "source"
              (start world0) "clone" "base" _ H1 H2 H3
              (mkInfo KindActive "clone" "base" ∅)) as [_ H].
  destruct (H eq_refl) as [Hgone Hkept].
  split; [exact Hgone|].
  unfold stored. rewrite (Hkept "app"); [vm_compute; reflexivity | discriminate].
Defined.

Lemma C5_witness :
  sn_Stat native "nope" world0 = ((Info_zero, Some (notFound "nope")), world0) /\
  exists err,
    fst (clonePrepare native sys 10 "clone" "nope" (cloneOpts "nope") (start world0))
    = Returns ([], Some err) /\
    IsNotFound err = true /\
    calls (clonePrepare native sys 10 "clone" "nope" (cloneOpts "nope")) (start world0)
    = [CallStat "nope"].
Proof.
  assert (H1 : sn_Stat native "nope" (world (start world0))
               = ((Info_zero, Some (notFound "nope")), world0)) by reflexivity.
  split; [exact H1|].
  destruct (C5_missing_source native sys 10 "clone" "nope" (cloneOpts "nope")
              (start world0) Info_zero (notFound "nope") world0 H1)
    as (err & Hrun & _ & _ & Hnf & Hcalls & _).
  exists err. rewrite Hrun. split; [reflexivity|]. split; [exact Hnf | exact Hcalls].
Defined.

Lemma C6_witness :
  exists err,
    fst (clonePrepare stubborn sys 10 "clone" "source" (cloneOpts "source") (start world0))
    = Returns ([], Some err) /\
    Error err
    = "copy writable layer: destination: no writable directory found in mounts (types: tmpfs) (cleanup also failed: remove clone: device busy)".
Proof.
  assert (H1 : sn_Stat stubborn "source" (world (start world0))
               = ((mkInfo KindActive "source" "base" ∅, None), world0)) by reflexivity.
  assert (H2 : sn_Mounts stubborn "source" world0 = ((bindMount "source", None), world0))
    by reflexivity.
  assert (H3 : sn_Prepare stubborn "clone"
                 (i_Parent (mkInfo KindActive "source" "base" ∅)) innerOpts world0
               = ((tmpfsMount, None), preparedWorld)) by (vm_compute; reflexivity).
  assert (H4 : copyWritableLayer sys 10 (bindMount "source") tmpfsMount
                 (mkState preparedWorld
                    (log (start world0)
                     ++ [CallStat "source"; CallMounts "source";
                         CallPrepare "clone"
                           (i_Parent (mkInfo KindActive "source" "base" ∅)) innerOpts]))
               = (Returns (Some (Errorf_w "destination: " noDir "")),
                  mkState preparedWorld
                    [CallStat "source"; CallMounts "source";
                     CallPrepare "clone" "base" innerOpts])) by reflexivity.
  destruct (C6_rollback_on_copy_failure stubborn sys 10 "clone" "source"
              (cloneOpts "source") (start world0) _ _ _ _ _ _ _ _ H1 H2 H3 H4)
    as (err & Hrun & _ & Hmsg).
  exists err. rewrite Hrun. split; [reflexivity|].
  destruct Hmsg as [Hmsg _]. rewrite Hmsg. reflexivity.
Defined.

(** In [world1] the mounts of [source] have no writable directory: the
    destination is prepared all the same, and then removed. *)
Lemma C7_witness :
  snd (getWritableDir [mkMount "tmpfs" "tmpfs" []]) <> None /\
  calls (clonePrepare native sys 10 "clone" "source" (cloneOpts "source")) (start world1)
  = [ CallStat "source"; CallMounts "source"; CallPrepare "clone" "base" innerOpts;
      CallRemove "clone" ].
Proof.
  assert (H1 : sn_Stat native "source" (world (start world1))
               = ((mkInfo KindActive "source" "base" ∅, None), world1)) by reflexivity.
  assert (H2 : sn_Mounts native "source" world1
               = (([mkMount "tmpfs" "tmpfs" []], None), world1)) by reflexivity.
  assert (H3 : sn_Prepare native "clone"
                 (i_Parent (mkInfo KindActive "source" "base" ∅)) innerOpts world1
               = ((bindMount "clone", None),
                  snd (sn_Prepare native "clone" "base" innerOpts world1)))
    by (vm_compute; reflexivity).
  assert (H4 : snd (getWritableDir [mkMount "tmpfs" "tmpfs" []]) <> None)
    by (vm_compute; discriminate).
  split; [exact H4|].
  destruct (C7_unsupported_shape_fails_after_creation native sys 10 "clone" "source"
              (cloneOpts "source") (start world1) _ _ _ _ _ _ H1 H2 H3 (or_introl H4))
    as (err & cause & _ & Hcalls & _).
  exact Hcalls.
Defined.

(** C7, as the specification has it, fails in [world1]: the mounts of
    [source] have no writable directory, and the run calls the store's
    [Prepare] and [Remove]. *)
Lemma C7_counterexample :
  ~ sourceShapeFailsBeforeCreation native sys 10 "clone" "source" (cloneOpts "source")
      (start world1).
Proof.
  intros H.
  specialize (H (mkInfo KindActive "source" "base" ∅) [mkMount "tmpfs" "tmpfs" []]
                world1 world1 noDir eq_refl eq_refl eq_refl).
  vm_compute in H. discriminate H.
Qed.

(** Clearing [/snapshots/base] in [world0]: its two files are removed, and
    the copy starts from the world without them. *)
Lemma C8_witness :
  getWritableDir (bindMount "source") = ("/snapshots/source", None) /\
  getWritableDir (bindMount "base") = ("/snapshots/base", None) /\
  removedAll sys "/snapshots/base" [Faults.baseTxt; Faults.deletedTxt] world0
  = Some (world Faults.cleared) /\
  tree "/snapshots/base" (world Faults.cleared) = [] /\
  copyWritableLayer sys 10 (bindMount "source") (bindMount "base") (start world0)
  = copyDir sys 10 "/snapshots/source" "/snapshots/base"
      (mkState (world Faults.cleared)
         [ CallReadDir "/snapshots/base";
           CallRemoveAll "/snapshots/base/base.txt";
           CallRemoveAll "/snapshots/base/will-be-deleted.txt" ]).
Proof.
  assert (H1 : getWritableDir (bindMount "source") = ("/snapshots/source", None))
    by reflexivity.
  assert (H2 : getWritableDir (bindMount "base") = ("/snapshots/base", None))
    by reflexivity.
  assert (H3 : os_ReadDir sys "/snapshots/base" (world (start world0))
               = (([Faults.baseTxt; Faults.deletedTxt], None), world0)) by reflexivity.
  assert (H4 : removedAll sys "/snapshots/base" [Faults.baseTxt; Faults.deletedTxt] world0
               = Some (world Faults.cleared)) by (vm_compute; reflexivity).
  split; [exact H1|]. split; [exact H2|]. split; [exact H4|].
  split; [vm_compute; reflexivity|].
  exact (proj1 (C8_clear_before_copy sys 10 (bindMount "source") (bindMount "base")
                  "/snapshots/source" "/snapshots/base" (start world0)
                  [Faults.baseTxt; Faults.deletedTxt] None world0 H1 H2 H3)
               (world Faults.cleared) eq_refl H4).
Defined.

(** The copy of [/snapshots/source] into [/snapshots/base] in [world0]
    meets [link.txt] after the file [base.txt] and the directory [etc],
    and makes the link with the target [real.txt]. *)
Lemma C9_witness :
  Visits sys Walks.fn 10 "/snapshots/source" (FileInfoToDirEntry Walks.rootInfo)
         Walks.examined "/snapshots/source/link.txt" linkEntry Walks.afterEtc /\
  N.land (de_Type linkEntry) ModeSymlink <> 0%N /\
  exists rest,
    log (snd (copyDir sys 10 "/snapshots/source" "/snapshots/base" (start world0)))
    = (log Walks.afterEtc
       ++ CallReadlink "/snapshots/source/link.txt"
          :: CallSymlink "real.txt" "/snapshots/base/link.txt" :: rest)%list.
Proof.
  assert (H0 : os_Lstat sys "/snapshots/source" (world (start world0))
               = ((Walks.rootInfo, None), world0)) by reflexivity.
  assert (Hw : Walked sys Walks.fn 9 "/snapshots/source"
                 [Walks.baseEntry; Walks.etcEntry] Walks.listed Walks.afterEtc).
  { apply (Walked_cons sys Walks.fn 9 "/snapshots/source" Walks.baseEntry
             [Walks.etcEntry] Walks.listed Walks.afterBase Walks.afterEtc);
      [vm_compute; reflexivity|].
    apply (Walked_cons sys Walks.fn 9 "/snapshots/source" Walks.etcEntry []
             Walks.afterBase Walks.afterEtc Walks.afterEtc);
      [vm_compute; reflexivity|].
    apply Walked_nil. }
  assert (Hv : Visits sys Walks.fn 10 "/snapshots/source"
                 (FileInfoToDirEntry Walks.rootInfo) Walks.examined
                 "/snapshots/source/link.txt" linkEntry Walks.afterEtc).
  { apply (Visits_below sys Walks.fn 9 "/snapshots/source"
             (FileInfoToDirEntry Walks.rootInfo) Walks.examined Walks.examined
             [Walks.baseEntry; Walks.etcEntry; linkEntry; Walks.lostEntry; Walks.realEntry]
             None Walks.listed Walks.listed
             [Walks.baseEntry; Walks.etcEntry] linkEntry
             [Walks.lostEntry; Walks.realEntry] Walks.afterEtc
             "/snapshots/source/link.txt" linkEntry Walks.afterEtc);
      try reflexivity; [exact Hw|].
    apply (Visits_here sys Walks.fn 8 "/snapshots/source/link.txt" linkEntry
             Walks.afterEtc). }
  assert (H1 : filepath_Rel sys "/snapshots/source" "/snapshots/source/link.txt"
               = ("link.txt", None)) by reflexivity.
  assert (H2 : "link.txt" <> ".") by discriminate.
  assert (H3 : N.land (de_Type linkEntry) ModeSymlink <> 0%N)
    by (vm_compute; discriminate).
  assert (H4 : os_Readlink sys "/snapshots/source/link.txt" (world Walks.afterEtc)
               = (("real.txt", None), world Walks.afterEtc))
    by (vm_compute; reflexivity).
  split; [exact Hv|]. split; [exact H3|].
  exact (proj2 (C9_symlink_recreated sys 10 "/snapshots/source" "/snapshots/base"
                  (start world0) Walks.rootInfo world0 "/snapshots/source/link.txt"
                  "link.txt" linkEntry Walks.afterEtc "real.txt" None
                  (world Walks.afterEtc) H0 Hv H1 H2 H3 H4)).
Defined.

(** The directive with the empty string as its value: the clone path is
    taken, with [Stat] of the empty key. *)
Lemma C10_witness :
  applyOpts (cloneOpts "") Info_zero = (emptySource, None) /\
  i_Labels emptySource !! LabelCloneSource = Some "" /\
  exists rest,
    calls (Prepare native sys 10 "clone" "base" (cloneOpts "")) (start world0)
    = CallStat "" :: rest.
Proof.
  assert (H1 : applyOpts (cloneOpts "") Info_zero = (emptySource, None)) by (vm_compute; reflexivity).
  assert (H2 : i_Labels emptySource !! LabelCloneSource = Some "")
    by (vm_compute; reflexivity).
  split; [exact H1|]. split; [exact H2|].
  exact (proj2 (C10_presence_not_value native sys 10 "clone" "base" (cloneOpts "")
                  emptySource "" (start world0) H1 H2)).
Defined.

(** *** The package's tests, run *)

(** The clone succeeds and returns the mounts of the new snapshot. *)
Example clone_returns : fst cloned = Returns (bindMount "clone", None).
Proof. vm_compute. reflexivity. Qed.

(** Its writable directory holds what the source's holds: the files, the
    directory with its mode, the two links with their targets (one of them
    dangling), and not the file of the base that the source had deleted. *)
Example clone_tree :
  tree "/snapshots/clone" (world (snd cloned)) = tree "/snapshots/source" world0 /\
  lookup "/snapshots/clone/link.txt" (files (world (snd cloned))) = Some (NLink "real.txt") /\
  lookup "/snapshots/clone/lost" (files (world (snd cloned))) = Some (NLink "../nowhere") /\
  lookup "/snapshots/clone/will-be-deleted.txt" (files (world (snd cloned))) = None /\
  lookup "/snapshots/base/will-be-deleted.txt" (files (world (snd cloned)))
  = Some (NFile 420%N "delete me").
Proof. vm_compute. repeat split; reflexivity. Qed.

(** It has the parent of the source and no labels. *)
Example clone_info :
  (fun sn => (i_Parent (sn_info sn), map_to_list (i_Labels (sn_info sn))))
    <$> lookup "clone" (snaps (world (snd cloned)))
  = Some ("base", []).
Proof. vm_compute. reflexivity. Qed.

(** A depth of 1 does not reach the file below [etc]: the run is cut. *)
Example clone_needs_depth :
  fst (Prepare native sys 1 "clone" "" (cloneOpts "source") (start world0)) = OutOfFuel.
Proof. vm_compute. reflexivity. Qed.

(** With the store whose mounts the package does not know, the destination
    is removed again. *)
Example clone_rolled_back :
  map fst (snaps (world (snd (Prepare foreign sys 10 "clone" "" (cloneOpts "source")
                                (start world0)))))
  = ["base"; "source"].
Proof. vm_compute. reflexivity. Qed.

End Runs.

(** * Further properties of the package *)

(** ** Options *)

Lemma applyOpts_app (a b : list Opt) (info : Info) :
  applyOpts (a ++ b) info
  = match applyOpts a info with
    | (info', Some e) => (info', Some e)
    | (info', None) => applyOpts b info'
    end.
Proof.
  revert info. induction a as [|opt a IH]; intros info; [reflexivity|].
  simpl. destruct (opt info) as [info' [e|]]; [reflexivity | apply IH].
Qed.

Lemma applyOpts_withoutLabel (opts : list Opt) (label : string) (base : Info) :
  applyOpts (withoutLabel opts label) base
  = match applyOpts opts base with
    | (info', Some e) => (info', Some e)
    | (info', None) => (deleteLabel label info', None)
    end.
Proof.
  unfold withoutLabel. simpl.
  destruct (applyOpts opts base) as [info' [e|]]; reflexivity.
Qed.

(** X2. Stripping two labels gives the same options in either order, and
    stripping a label twice is stripping it once: on every base info the
    results are equal. *)
Theorem X2_withoutLabel_order (opts : list Opt) (a b : string) (base : Info) :
  applyOpts (withoutLabel (withoutLabel opts a) b) base
  = applyOpts (withoutLabel (withoutLabel opts b) a) base /\
  applyOpts (withoutLabel (withoutLabel opts a) a) base
  = applyOpts (withoutLabel opts a) base.
Proof.
  rewrite !applyOpts_withoutLabel.
  destruct (applyOpts opts base) as [info [e|]]; [split; reflexivity|].
  unfold deleteLabel. simpl. split.
  - now rewrite delete_delete.
  - now rewrite delete_delete_eq.
Qed.

(** X3. When the caller's options leave no such label, the options of
    [withoutLabel] leave exactly the info that the caller's options leave:
    stripping changes nothing for a request without the directive. *)
Theorem X3_withoutLabel_absent (opts : list Opt) (label : string) (base info : Info) :
  applyOpts opts base = (info, None) ->
  i_Labels info !! label = None ->
  applyOpts (withoutLabel opts label) base = (info, None).
Proof.
  intros Ho Hl. rewrite applyOpts_withoutLabel, Ho.
  unfold deleteLabel. rewrite (delete_id _ _ Hl). now destruct info.
Qed.

(** ** More on the locator *)

Lemma writableDirLoop_app (l1 l2 : list Mount) :
  writableDirLoop (l1 ++ l2)
  = match writableDirLoop l1 with
    | Some val => Some val
    | None => writableDirLoop l2
    end.
Proof.
  induction l1 as [|m l1 IH]; [reflexivity|].
  simpl. destruct (String.eqb (m_Type m) "overlay").
  - destruct (upperdirOption (m_Options m)); [reflexivity | apply IH].
  - destruct (String.eqb (m_Type m) "bind"); [reflexivity | apply IH].
Qed.

(** X4. Once a list of mounts has a writable directory, mounts added after
    it change nothing: [getWritableDir] returns the same path. *)
Theorem X4_getWritableDir_ignores_later (l1 l2 : list Mount) :
  snd (getWritableDir l1) = None ->
  getWritableDir (l1 ++ l2) = getWritableDir l1.
Proof.
  unfold getWritableDir. rewrite writableDirLoop_app.
  destruct (writableDirLoop l1); [reflexivity | discriminate].
Qed.

(** X5. Mounts of a type other than overlay and bind play no part in the
    result: without them [getWritableDir] returns the same path and fails
    in the same cases (only the types listed in the error message
    differ). *)
Theorem X5_getWritableDir_skips_unknown (mounts : list Mount) :
  fst (getWritableDir (List.filter knownType mounts)) = fst (getWritableDir mounts) /\
  (snd (getWritableDir (List.filter knownType mounts)) = None
   <-> snd (getWritableDir mounts) = None).
Proof.
  assert (H : writableDirLoop (List.filter knownType mounts) = writableDirLoop mounts).
  { induction mounts as [|m rest IH]; [reflexivity|].
    simpl. unfold knownType at 1.
    destruct (String.eqb (m_Type m) "overlay") eqn:Ho; simpl.
    - rewrite Ho. now rewrite IH.
    - destruct (String.eqb (m_Type m) "bind") eqn:Hb; simpl.
      + now rewrite Ho, Hb.
      + exact IH. }
  unfold getWritableDir. rewrite H.
  destruct (writableDirLoop mounts); simpl; split; try reflexivity; split; congruence.
Qed.

Lemma upperdirOption_app (pre post : list string) :
  forallb (fun o => negb (Spec.isUpperdir o)) pre = true ->
  upperdirOption (pre ++ post) = upperdirOption post.
Proof.
  induction pre as [|o pre IH]; [reflexivity|].
  simpl. intros H. apply andb_true_iff in H as [Ho Hpre].
  unfold Strings.CutPrefix. rewrite trim_prefix_prefix.
  unfold Spec.isUpperdir in Ho. destruct (String.prefix "upperdir=" o); [discriminate|].
  apply IH, Hpre.
Qed.

(** X6. An overlay mount at the head of the list, whose first option that
    starts with [upperdir=] is [upperdir=] followed by [v], gives [v] as it
    is, whatever [v] is (the empty string included) and whatever the other
    options and mounts are. *)
Theorem X6_upperdir_value (source v : string) (pre post : list string)
    (rest : list Mount) :
  forallb (fun o => negb (Spec.isUpperdir o)) pre = true ->
  getWritableDir (mkMount "overlay" source (pre ++ ("upperdir=" +:+ v) :: post) :: rest)
  = (v, None).
Proof.
  intros Hpre.
  assert (Hhead : upperdirOption (("upperdir=" +:+ v) :: post) = Some v).
  { cbn [upperdirOption]. unfold Strings.CutPrefix.
    now rewrite (proj2 (trim_prefix_Some "upperdir=" ("upperdir=" +:+ v) v) eq_refl). }
  unfold getWritableDir. cbn [writableDirLoop m_Type m_Options].
  rewrite String.eqb_refl, (upperdirOption_app _ _ Hpre), Hhead. reflexivity.
Qed.

Lemma Join_app (a b : list string) (sep : string) :
  Strings.Join (a ++ b) sep
  = match a, b with
    | [], _ => Strings.Join b sep
    | _, [] => Strings.Join a sep
    | _, _ => Strings.Join a sep +:+ sep +:+ Strings.Join b sep
    end.
Proof.
  induction a as [|x a IH]; [reflexivity|].
  destruct b as [|y b]; [now rewrite app_nil_r|].
  destruct a as [|x' a]; [reflexivity|].
  change (x +:+ sep +:+ Strings.Join ((x' :: a) ++ y :: b) sep
          = (x +:+ sep +:+ Strings.Join (x' :: a) sep) +:+ sep +:+ Strings.Join (y :: b) sep).
  rewrite IH, !append_assoc. reflexivity.
Qed.

(** X7. The types of two lists of mounts put together are the types of the
    one, a comma and a space, and the types of the other; an empty list
    adds nothing, not even the separator. *)
Theorem X7_joinMountTypes_app (a b : list Mount) :
  joinMountTypes (a ++ b)
  = match a, b with
    | [], _ => joinMountTypes b
    | _, [] => joinMountTypes a
    | _, _ => joinMountTypes a +:+ ", " +:+ joinMountTypes b
    end.
Proof.
  unfold joinMountTypes. rewrite map_app, Join_app.
  destruct a, b; reflexivity.
Qed.

(** X8. On a list without overlay mounts, as the native snapshotter of the
    tests gives, the helper of the tests and [getWritableDir] agree: they
    find the same directory, and when the helper finds none
    [getWritableDir] fails. *)
Theorem X8_test_helper_agrees (mounts : list Mount) :
  forallb (fun m => negb (String.eqb (m_Type m) "overlay")) mounts = true ->
  match Test.writableDir mounts with
  | Some dir => getWritableDir mounts = (dir, None)
  | None => fst (getWritableDir mounts) = "" /\ snd (getWritableDir mounts) <> None
  end.
Proof.
  intros H.
  assert (Hloop : writableDirLoop mounts = Test.writableDir mounts).
  { induction mounts as [|m rest IH]; [reflexivity|].
    simpl in H |- *. apply andb_true_iff in H as [Hm Hrest].
    destruct (String.eqb (m_Type m) "overlay"); [discriminate|].
    destruct (String.eqb (m_Type m) "bind"); [reflexivity | apply IH, Hrest]. }
  unfold getWritableDir. rewrite Hloop.
  destruct (Test.writableDir mounts); simpl; [reflexivity | split; [reflexivity | discriminate]].
Qed.

(** ** More on [Prepare] and [clonePrepare] *)

Section MoreClone.
Context {W : Type} (inner : Snapshotter W) (sys : Sys W).

(** X1. When the options before one succeed and that one fails, [Prepare]
    returns its error with nil mounts and calls nothing, neither the store
    nor the file system, whatever the options after it are (the clone
    directive among them or not). *)
Theorem X1_first_failing_option (fuel : nat) (key parent : string)
    (a : list Opt) (opt : Opt) (b : list Opt) (info1 info2 : Info) (e : error)
    (s : State W) :
  applyOpts a Info_zero = (info1, None) ->
  opt info1 = (info2, Some e) ->
  Prepare inner sys fuel key parent (a ++ opt :: b) s = (Returns ([], Some e), s).
Proof.
  intros Ha Hopt. unfold Prepare. rewrite applyOpts_app, Ha. simpl.
  now rewrite Hopt.
Qed.

(** X9. The options that [clonePrepare] hands to the store never start a
    clone again: [Prepare] of this package on them is the store's [Prepare]
    on them, or the error of the caller's failing option; it does not call
    [Stat]. *)
Theorem X9_stripped_options_delegate (fuel : nat) (key parent : string)
    (opts : list Opt) (s : State W) :
  Prepare inner sys fuel key parent (withoutLabel opts LabelCloneSource) s
  = match applyOpts opts Info_zero with
    | (_, Some e) => (Returns ([], Some e), s)
    | (_, None) => innerPrepare inner key parent (withoutLabel opts LabelCloneSource) s
    end.
Proof.
  unfold Prepare. rewrite applyOpts_withoutLabel.
  destruct (applyOpts opts Info_zero) as [info [e|]]; [reflexivity|].
  unfold deleteLabel. simpl. now rewrite lookup_delete_eq.
Qed.

Lemma Is_Errorf_w (prefix : string) (e : error) (suffix : string) (k : ErrKind) :
  Is (Errorf_w prefix e suffix) k = Is e k.
Proof. reflexivity. Qed.

Lemma Error_Errorf_w (prefix : string) (e : error) :
  Error (Errorf_w prefix e "") = prefix +:+ Error e.
Proof. unfold Errorf_w. simpl. now rewrite append_nil_r. Qed.

(** X10. When [Stat] of the source succeeds and [Mounts] of it fails with
    [e], [clonePrepare] returns an error that wraps [e] and is of the kinds
    that [e] is of; [Stat] and [Mounts] are its only calls, so nothing was
    created. *)
Theorem X10_mounts_failure (fuel : nat) (key sourceKey : string) (opts : list Opt)
    (s : State W) (si : Info) (w1 : W) (sourceMounts : list Mount) (e : error) (w2 : W) :
  sn_Stat inner sourceKey (world s) = ((si, None), w1) ->
  sn_Mounts inner sourceKey w1 = ((sourceMounts, Some e), w2) ->
  exists err,
    clonePrepare inner sys fuel key sourceKey opts s
    = (Returns ([], Some err),
       mkState w2 (log s ++ [CallStat sourceKey; CallMounts sourceKey])) /\
    Unwrap err = Some e /\
    (forall k, Is err k = Is e k) /\
    Error err = ("get mounts for source snapshot " +:+ fmt_q sys sourceKey +:+ ": ")
                +:+ Error e.
Proof.
  intros Hst Hmo. eexists. split; [|split; [|split]].
  - unfold clonePrepare, bind, Stat, Mounts, call.
    rewrite Hst. simpl. rewrite Hmo. simpl. rewrite <- app_assoc. reflexivity.
  - reflexivity.
  - intros k. apply Is_Errorf_w.
  - apply Error_Errorf_w.
Qed.

(** X11. When the store's [Prepare] of the destination fails with [e] (the
    key exists already, say), [clonePrepare] returns an error that wraps
    [e] and is of the kinds that [e] is of; its calls are [Stat], [Mounts]
    and that [Prepare]: nothing on the file system, and no [Remove]. *)
Theorem X11_prepare_failure (fuel : nat) (key sourceKey : string) (opts : list Opt)
    (s : State W) (si : Info) (w1 : W) (sourceMounts : list Mount) (w2 : W)
    (mounts : list Mount) (e : error) (w3 : W) :
  sn_Stat inner sourceKey (world s) = ((si, None), w1) ->
  sn_Mounts inner sourceKey w1 = ((sourceMounts, None), w2) ->
  sn_Prepare inner key (i_Parent si) (withoutLabel opts LabelCloneSource) w2
  = ((mounts, Some e), w3) ->
  exists err,
    clonePrepare inner sys fuel key sourceKey opts s
    = (Returns ([], Some err),
       mkState w3 (log s ++ [CallStat sourceKey; CallMounts sourceKey;
                             CallPrepare key (i_Parent si)
                                         (withoutLabel opts LabelCloneSource)])) /\
    Unwrap err = Some e /\
    (forall k, Is err k = Is e k) /\
    Error err = ("prepare snapshot " +:+ fmt_q sys key +:+ ": ") +:+ Error e.
Proof.
  intros Hst Hmo Hpr. eexists. split; [|split; [|split]].
  - unfold clonePrepare, bind, Stat, Mounts, innerPrepare, call.
    rewrite Hst. simpl. rewrite Hmo. simpl. rewrite Hpr. simpl.
    rewrite <- !app_assoc. reflexivity.
  - reflexivity.
  - intros k. apply Is_Errorf_w.
  - apply Error_Errorf_w.
Qed.

(** X12. When the store has prepared the destination and the copy of the
    writable layer returns nil, [clonePrepare] returns the mounts that the
    store's [Prepare] returned, with a nil error, in the state the copy
    left: it calls nothing after the copy, and [Remove] not at all. *)
Theorem X12_clone_success (fuel : nat) (key sourceKey : string) (opts : list Opt)
    (s : State W) (si : Info) (w1 : W) (sourceMounts : list Mount) (w2 : W)
    (mounts : list Mount) (w3 : W) (s4 : State W) :
  sn_Stat inner sourceKey (world s) = ((si, None), w1) ->
  sn_Mounts inner sourceKey w1 = ((sourceMounts, None), w2) ->
  sn_Prepare inner key (i_Parent si) (withoutLabel opts LabelCloneSource) w2
  = ((mounts, None), w3) ->
  copyWritableLayer sys fuel sourceMounts mounts
    (mkState w3 (log s ++ [CallStat sourceKey; CallMounts sourceKey;
                           CallPrepare key (i_Parent si)
                                       (withoutLabel opts LabelCloneSource)]))
  = (Returns None, s4) ->
  clonePrepare inner sys fuel key sourceKey opts s = (Returns (mounts, None), s4) /\
  storeCalls (calls (clonePrepare inner sys fuel key sourceKey opts) s)
  = [ CallStat sourceKey; CallMounts sourceKey;
      CallPrepare key (i_Parent si) (withoutLabel opts LabelCloneSource) ].
Proof.
  intros Hst Hmo Hpr Hcp.
  assert (Hrun : clonePrepare inner sys fuel key sourceKey opts s
                 = (Returns (mounts, None), s4)).
  { unfold clonePrepare, bind, Stat, Mounts, innerPrepare, call.
    rewrite Hst. simpl. rewrite Hmo. simpl. rewrite Hpr. simpl.
    rewrite <- !app_assoc. simpl. now rewrite Hcp. }
  split; [exact Hrun|].
  destruct (logs_copyWritableLayer sys fuel sourceMounts mounts
              (mkState w3 (log s ++ [CallStat sourceKey; CallMounts sourceKey;
                 CallPrepare key (i_Parent si) (withoutLabel opts LabelCloneSource)])))
    as (l & Hl & Hfs).
  rewrite Hcp in Hl. simpl in Hl.
  rewrite (calls_of_log _ s
             ([CallStat sourceKey; CallMounts sourceKey;
               CallPrepare key (i_Parent si) (withoutLabel opts LabelCloneSource)] ++ l)).
  - rewrite storeCalls_app, (storeCalls_none l Hfs). reflexivity.
  - rewrite Hrun. simpl. rewrite Hl, <- app_assoc. reflexivity.
Qed.

(** X13. Whenever [clonePrepare] returns an error, the mounts it returns
    with it are nil and the error is one made with [%w]: it has a cause
    that [errors.Unwrap] gives. *)
Theorem X13_error_shape (fuel : nat) (key sourceKey : string) (opts : list Opt)
    (s s' : State W) (mounts : list Mount) (err : error) :
  clonePrepare inner sys fuel key sourceKey opts s = (Returns (mounts, Some err), s') ->
  mounts = [] /\ is_Some (Unwrap err).
Proof.
  unfold clonePrepare. intros Hrun.
  apply bind_Returns in Hrun as ([si e1] & s1 & _ & Hrun).
  destruct e1 as [e1|]; [injection Hrun as <- <- _; split; eauto|].
  apply bind_Returns in Hrun as ([sourceMounts e2] & s2 & _ & Hrun).
  destruct e2 as [e2|]; [injection Hrun as <- <- _; split; eauto|].
  apply bind_Returns in Hrun as ([ms e3] & s3 & _ & Hrun).
  destruct e3 as [e3|]; [injection Hrun as <- <- _; split; eauto|].
  apply bind_Returns in Hrun as (e4 & s4 & _ & Hrun).
  destruct e4 as [e4|]; [|discriminate Hrun].
  apply bind_Returns in Hrun as (re & s5 & _ & Hrun).
  destruct re as [re|]; injection Hrun as <- <- _; split; eauto.
Qed.

(** X14. After a failed copy, the error that [clonePrepare] returns is of
    the kinds that the error of the copy is of, whether [Remove] succeeds
    or fails: the error of [Remove] is in the message only and does not
    count for [errors.Is]. *)
Theorem X14_rollback_error_kind (fuel : nat) (key sourceKey : string)
    (opts : list Opt) (s : State W) (si : Info) (w1 : W)
    (sourceMounts : list Mount) (w2 : W) (mounts : list Mount) (w3 : W)
    (e : error) (s4 : State W) :
  sn_Stat inner sourceKey (world s) = ((si, None), w1) ->
  sn_Mounts inner sourceKey w1 = ((sourceMounts, None), w2) ->
  sn_Prepare inner key (i_Parent si) (withoutLabel opts LabelCloneSource) w2
  = ((mounts, None), w3) ->
  copyWritableLayer sys fuel sourceMounts mounts
    (mkState w3 (log s ++ [CallStat sourceKey; CallMounts sourceKey;
                           CallPrepare key (i_Parent si)
                                       (withoutLabel opts LabelCloneSource)]))
  = (Returns (Some e), s4) ->
  exists err,
    fst (clonePrepare inner sys fuel key sourceKey opts s) = Returns ([], Some err) /\
    forall k, Is err k = Is e k.
Proof.
  intros Hst Hmo Hpr Hcp.
  rewrite (clonePrepare_rollback inner sys _ _ _ _ _ _ _ _ _ _ _ _ _ Hst Hmo Hpr Hcp).
  eexists. split; [reflexivity|]. intros k.
  destruct (fst (sn_Remove inner key (world s4))); apply Is_Errorf_w.
Qed.

(** X15. The calls of [clonePrepare] on the store are always a beginning
    of: [Stat] of the source, [Mounts] of the source, [Prepare] of the
    destination, [Remove] of the destination.  So each is made at most
    once, the source is only read, and [Remove] comes only after a
    [Prepare]. *)
Theorem X15_store_calls (fuel : nat) (key sourceKey : string) (opts : list Opt)
    (s : State W) :
  storeCalls (calls (clonePrepare inner sys fuel key sourceKey opts) s)
  `prefix_of`
  [ CallStat sourceKey; CallMounts sourceKey;
    CallPrepare key (i_Parent (fst (fst (sn_Stat inner sourceKey (world s)))))
                (withoutLabel opts LabelCloneSource);
    CallRemove key ].
Proof.
  destruct (clonePrepare_storeCalls inner sys fuel key sourceKey opts s)
    as (l & Hlog & Hpre).
  now rewrite (calls_of_log _ _ _ Hlog).
Qed.

End MoreClone.

(** ** More on the replication *)

Section MoreReplication.
Context {W : Type} (sys : Sys W).

(** X16. [clearDir] stops at the first entry that cannot be removed: when
    the entries before [e] are removed and [os.RemoveAll] of [e] fails with
    [x], it returns [x] as it is, and its calls are the listing and the
    removals up to [e]; the entries after [e] are left alone. *)
Theorem X16_clearDir_stops (dir : string) (pre post : list (DirEntry W))
    (e : DirEntry W) (s : State W) (w1 w2 w3 : W) (x : error) :
  os_ReadDir sys dir (world s) = (((pre ++ e :: post)%list, None), w1) ->
  removedAll sys dir pre w1 = Some w2 ->
  os_RemoveAll sys (filepath_Join sys dir (de_Name e)) w2 = (Some x, w3) ->
  clearDir sys dir s
  = (Returns (Some x),
     mkState w3 (log s ++ CallReadDir dir :: removals sys dir (pre ++ [e]))).
Proof.
  intros Hrd Hpre Hrm. unfold clearDir, bind at 1, ReadDir, call. rewrite Hrd.
  rewrite (clearDirLoop_app sys dir pre (e :: post) _ _ w2 Hpre).
  simpl. unfold bind, RemoveAll, call. simpl. rewrite Hrm.
  unfold removals. rewrite map_app, <- !app_assoc. reflexivity.
Qed.

(** X17. When the listing of the destination directory fails for another
    reason than that it does not exist, [copyWritableLayer] returns that
    error wrapped as a failure to clear the destination; the listing is
    its only call: nothing is removed and nothing is copied. *)
Theorem X17_unreadable_destination (fuel : nat) (srcMounts dstMounts : list Mount)
    (srcDir dstDir : string) (s : State W) (entries : list (DirEntry W))
    (e : error) (w1 : W) :
  getWritableDir srcMounts = (srcDir, None) ->
  getWritableDir dstMounts = (dstDir, None) ->
  os_ReadDir sys dstDir (world s) = ((entries, Some e), w1) ->
  IsNotExist e = false ->
  copyWritableLayer sys fuel srcMounts dstMounts s
  = (Returns (Some (Errorf_w "clear destination directory: " e "")),
     mkState w1 (log s ++ [CallReadDir dstDir])).
Proof.
  intros Hsrc Hdst Hrd Hne. unfold copyWritableLayer. rewrite Hsrc, Hdst.
  unfold clearDir, bind, ReadDir, call. rewrite Hrd. simpl. now rewrite Hne.
Qed.

(** X18. The source directory is looked at only after the destination has
    been cleared: when [os.Lstat] of the source directory then fails with
    [e], [copyWritableLayer] returns [e] as it is, without a prefix, and
    [os.Lstat] is the only call after the clearing. *)
Theorem X18_missing_source_directory (fuel : nat) (srcMounts dstMounts : list Mount)
    (srcDir dstDir : string) (s s1 : State W) (info : FileInfo) (e : error) (w2 : W) :
  getWritableDir srcMounts = (srcDir, None) ->
  getWritableDir dstMounts = (dstDir, None) ->
  clearDir sys dstDir s = (Returns None, s1) ->
  os_Lstat sys srcDir (world s1) = ((info, Some e), w2) ->
  isSkipDir e || isSkipAll e = false ->
  copyWritableLayer sys fuel srcMounts dstMounts s
  = (Returns (Some e), mkState w2 (log s1 ++ [CallLstat srcDir])).
Proof.
  intros Hsrc Hdst Hclear Hls Hskip. unfold copyWritableLayer. rewrite Hsrc, Hdst.
  unfold bind at 1. rewrite Hclear.
  unfold copyDir, WalkDir, bind, Lstat, call. rewrite Hls. simpl. now rewrite Hskip.
Qed.

(** X19. When the source directory is not a directory (a file, or a
    symbolic link, which is not followed), [copyDir] returns nil and has
    copied nothing: [os.Lstat] of it is the only call. *)
Theorem X19_source_not_a_directory (fuel : nat) (srcDir dstDir : string)
    (s : State W) (info : FileInfo) (w1 : W) :
  os_Lstat sys srcDir (world s) = ((info, None), w1) ->
  ModeIsDir (fi_Mode info) = false ->
  filepath_Rel sys srcDir srcDir = (".", None) ->
  copyDir sys (S fuel) srcDir dstDir s
  = (Returns None, mkState w1 (log s ++ [CallLstat srcDir])).
Proof.
  intros Hls Hdir Hrel. unfold copyDir, WalkDir, bind at 1 2, Lstat, call.
  rewrite Hls. simpl. unfold bind, copyDirFn. rewrite Hrel. simpl.
  now rewrite Hdir.
Qed.

Lemma Perm_le (m : FileMode) : (Perm m <= ModePerm)%N.
Proof. apply N.land_le_r. Qed.

(** X20. In a copy, whatever the tree and the depth reached, every
    directory is made and every file is opened with permission bits only
    (at most [0777]: set-uid, set-gid and sticky bits of the source are
    not carried over), and every file is opened with
    [O_CREATE|O_WRONLY|O_TRUNC]. *)
Theorem X20_permission_bits_only (fuel : nat) (srcDir dstDir : string) (s : State W) :
  Forall maskedCall (calls (copyDir sys fuel srcDir dstDir) s).
Proof.
  apply logs_calls. unfold copyDir. apply logs_WalkDir; try (intros; exact I).
  intros path d err. unfold copyDirFn.
  destruct err as [e|]; [apply logs_ret|].
  destruct (filepath_Rel sys srcDir path) as [rel [e|]]; [apply logs_ret|].
  destruct (String.eqb rel "."); [apply logs_ret|].
  destruct d as [d|]; [|apply logs_stop].
  destruct (negb (N.land (de_Type d) ModeSymlink =? 0)%N).
  - unfold copySymlink, Readlink, Symlink. repeat (logs_step; simpl; auto).
  - destruct (de_IsDir d); unfold EntryInfo, MkdirAll.
    + apply logs_bind; [apply logs_call; exact I|]. intros [info [e|]];
        [apply logs_ret|].
      apply logs_call. apply Perm_le.
    + apply logs_bind; [apply logs_call; exact I|]. intros [info [e|]];
        [apply logs_ret|].
      apply logs_copyFile; simpl; auto. split; [reflexivity | apply Perm_le].
Qed.

(** X21. [copyFile] closes what it has opened, the destination before the
    source: its calls are the opening of the source alone when that fails;
    the two openings and the closing of the source when the destination
    cannot be opened; and otherwise the two openings, the copy, the closing
    of the destination and the closing of the source. *)
Theorem X21_copyFile_closes (src dst : string) (mode : FileMode) (s : State W) :
  let flag := N.lor O_CREATE (N.lor O_WRONLY O_TRUNC) in
  match os_Open sys src (world s) with
  | ((_, Some _), _) => calls (copyFile sys src dst mode) s = [CallOpen src]
  | ((in_, None), w1) =>
      match os_OpenFile sys dst flag mode w1 with
      | ((_, Some _), _) =>
          calls (copyFile sys src dst mode) s
          = [CallOpen src; CallOpenFile dst flag mode; CallClose in_]
      | ((out, None), _) =>
          calls (copyFile sys src dst mode) s
          = [CallOpen src; CallOpenFile dst flag mode; CallCopy out in_;
             CallClose out; CallClose in_]
      end
  end.
Proof.
  intros flag. unfold copyFile, bind, Open, OpenFile, Copy, Close, call.
  destruct (os_Open sys src (world s)) as [[in_ [e|]] w1] eqn:Hop; simpl.
  - apply calls_of_log. unfold copyFile, bind, Open, call. now rewrite Hop.
  - fold flag.
    destruct (os_OpenFile sys dst flag mode w1) as [[out [e|]] w2] eqn:Hof; simpl.
    + apply calls_of_log. unfold copyFile, bind, Open, OpenFile, Close, call.
      rewrite Hop. simpl. fold flag. rewrite Hof. simpl.
      destruct (f_Close sys in_ w2). simpl. rewrite <- !app_assoc. reflexivity.
    + apply calls_of_log. unfold copyFile, bind, Open, OpenFile, Copy, Close, call.
      rewrite Hop. simpl. fold flag. rewrite Hof. simpl.
      destruct (io_Copy sys out in_ w2) as [[n cerr] w3]. simpl.
      destruct (f_Close sys out w3) as [oerr w4]. simpl.
      destruct (f_Close sys in_ w4) as [ierr w5]. simpl.
      rewrite <- !app_assoc. destruct cerr; reflexivity.
Qed.

(** X22. When both files are open, [copyFile] returns the error of the
    copy if there is one, else the error of closing the destination, else
    nil; an error of closing the source is never returned. *)
Theorem X22_copyFile_error (src dst : string) (mode : FileMode) (s : State W)
    (in_ out : File) (w1 w2 w3 w4 : W) (n : Z) (cerr oerr : option error) :
  os_Open sys src (world s) = ((in_, None), w1) ->
  os_OpenFile sys dst (N.lor O_CREATE (N.lor O_WRONLY O_TRUNC)) mode w1
  = ((out, None), w2) ->
  io_Copy sys out in_ w2 = ((n, cerr), w3) ->
  f_Close sys out w3 = (oerr, w4) ->
  fst (copyFile sys src dst mode s)
  = Returns (match cerr with Some e => Some e | None => oerr end) /\
  world (snd (copyFile sys src dst mode s)) = snd (f_Close sys in_ w4).
Proof.
  intros Hop Hof Hcp Hcl. unfold copyFile, bind, Open, OpenFile, Copy, Close, call.
  rewrite Hop. simpl. rewrite Hof. simpl. rewrite Hcp. simpl. rewrite Hcl. simpl.
  destruct (f_Close sys in_ w4) as [ierr w5]. simpl.
  destruct cerr; split; reflexivity.
Qed.

End MoreReplication.

(** ** The further properties on the store and file system in memory *)

Module MoreRuns.
Import Mem Faults.

(** The directive comes after the option that fails: no clone, no call. *)
Lemma X1_witness :
  Prepare native sys 10 "clone" "" ([WithLabels ∅] ++ badOpt :: cloneOpts "source")
          (start world0)
  = (Returns ([], Some (errorString "bad option")), start world0).
Proof.
  apply (X1_first_failing_option native sys 10 "clone" "" [WithLabels ∅] badOpt
           (cloneOpts "source") Info_zero Info_zero (errorString "bad option")
           (start world0)); vm_compute; reflexivity.
Defined.

Lemma X3_witness :
  applyOpts (withoutLabel [WithLabels {[ "app" := "db" ]}] LabelCloneSource) Info_zero
  = (appLabels, None).
Proof.
  apply (X3_withoutLabel_absent [WithLabels {[ "app" := "db" ]}] LabelCloneSource
           Info_zero appLabels); vm_compute; reflexivity.
Defined.

Lemma X4_witness :
  getWritableDir (bindMount "source" ++ [mkMount "overlay" "overlay" overlayOptions])
  = getWritableDir (bindMount "source").
Proof.
  apply (X4_getWritableDir_ignores_later (bindMount "source")
           [mkMount "overlay" "overlay" overlayOptions]).
  reflexivity.
Defined.

Lemma X6_witness :
  getWritableDir [mkMount "overlay" "overlay" overlayOptions; mkMount "bind" "/b" []]
  = ("/var/lib/s/7/fs", None).
Proof.
  apply (X6_upperdir_value "overlay" "/var/lib/s/7/fs"
           ["index=off"; "workdir=/var/lib/s/7/work"]
           ["lowerdir=/var/lib/s/3/fs:/var/lib/s/1/fs"] [mkMount "bind" "/b" []]).
  reflexivity.
Defined.

Lemma X8_witness :
  match Test.writableDir (bindMount "source") with
  | Some dir => getWritableDir (bindMount "source") = (dir, None)
  | None => fst (getWritableDir (bindMount "source")) = ""
            /\ snd (getWritableDir (bindMount "source")) <> None
  end.
Proof.
  apply (X8_test_helper_agrees (bindMount "source")). reflexivity.
Defined.

Lemma X10_witness :
  exists err,
    fst (clonePrepare noMounts sys 10 "clone" "source" (cloneOpts "source") (start world0))
    = Returns ([], Some err) /\
    Error err
    = "get mounts for source snapshot " +:+ quote "source"
      +:+ ": mounts source: input/output error".
Proof.
  assert (H1 : sn_Stat noMounts "source" (world (start world0))
               = ((mkInfo KindActive "source" "base" ∅, None), world0)) by reflexivity.
  assert (H2 : sn_Mounts noMounts "source" world0
               = (([], Some (ErrExt KOther "mounts source: input/output error")), world0))
    by reflexivity.
  destruct (X10_mounts_failure noMounts sys 10 "clone" "source" (cloneOpts "source")
              (start world0) _ _ _ _ _ H1 H2) as (err & Hrun & _ & _ & Hmsg).
  exists err. rewrite Hrun, Hmsg. split; reflexivity.
Defined.

(** A clone onto a key that exists: the store's already-exists error comes
    back as one. *)
Lemma X11_witness :
  exists err,
    fst (clonePrepare native sys 10 "base" "source" (cloneOpts "source") (start world0))
    = Returns ([], Some err) /\
    Is err KAlreadyExists = true.
Proof.
  assert (H1 : sn_Stat native "source" (world (start world0))
               = ((mkInfo KindActive "source" "base" ∅, None), world0)) by reflexivity.
  assert (H2 : sn_Mounts native "source" world0 = ((bindMount "source", None), world0))
    by reflexivity.
  assert (H3 : sn_Prepare native "base"
                 (i_Parent (mkInfo KindActive "source" "base" ∅)) innerOpts world0
               = (([], Some (ErrExt KAlreadyExists "snapshot base: already exists")),
                  world0)) by reflexivity.
  destruct (X11_prepare_failure native sys 10 "base" "source" (cloneOpts "source")
              (start world0) _ _ _ _ _ _ _ H1 H2 H3) as (err & Hrun & _ & Hkind & _).
  exists err. rewrite Hrun, Hkind. split; reflexivity.
Defined.

Lemma X12_witness :
  clonePrepare native sys 10 "clone" "source" (cloneOpts "source") (start world0)
  = (Returns (bindMount "clone", None), atCopied).
Proof.
  assert (H1 : sn_Stat native "source" (world (start world0))
               = ((mkInfo KindActive "source" "base" ∅, None), world0)) by reflexivity.
  assert (H2 : sn_Mounts native "source" world0 = ((bindMount "source", None), world0))
    by reflexivity.
  assert (H3 : sn_Prepare native "clone"
                 (i_Parent (mkInfo KindActive "source" "base" ∅)) innerOpts world0
               = ((bindMount "clone", None), world atPrepared))
    by (vm_compute; reflexivity).
  assert (H4 : copyWritableLayer sys 10 (bindMount "source") (bindMount "clone")
                 (mkState (world atPrepared)
                    (log (start world0)
                     ++ [CallStat "source"; CallMounts "source";
                         CallPrepare "clone"
                           (i_Parent (mkInfo KindActive "source" "base" ∅)) innerOpts]))
               = (Returns None, atCopied)).
  { assert (Hf : fst (copyWritableLayer sys 10 (bindMount "source") (bindMount "clone")
                        atPrepared) = Returns None) by (vm_compute; reflexivity).
    change (copyWritableLayer sys 10 (bindMount "source") (bindMount "clone") atPrepared
            = (Returns None,
               snd (copyWritableLayer sys 10 (bindMount "source") (bindMount "clone")
                      atPrepared))).
    destruct (copyWritableLayer sys 10 (bindMount "source") (bindMount "clone") atPrepared)
      as [r s4].
    simpl in Hf. now subst r. }
  exact (proj1 (X12_clone_success native sys 10 "clone" "source" (cloneOpts "source")
                  (start world0) _ _ _ _ _ _ _ H1 H2 H3 H4)).
Defined.

Lemma X13_witness :
  exists err,
    is_Some (Unwrap err) /\
    clonePrepare native sys 10 "clone" "nope" (cloneOpts "nope") (start world0)
    = (Returns ([], Some err), mkState world0 [CallStat "nope"]).
Proof.
  assert (H : clonePrepare native sys 10 "clone" "nope" (cloneOpts "nope") (start world0)
              = (Returns ([], Some (Errorf_w ("stat source snapshot " +:+ quote "nope"
                                              +:+ ": ") (notFound "nope") "")),
                 mkState world0 [CallStat "nope"])) by reflexivity.
  eexists. split; [|exact H].
  exact (proj2 (X13_error_shape native sys 10 "clone" "nope" (cloneOpts "nope")
                  (start world0) _ _ _ H)).
Defined.

(** The store's [Remove] fails with an error of another kind; the error
    returned is no more of that kind than the error of the copy. *)
Lemma X14_witness :
  exists err,
    fst (clonePrepare stubborn sys 10 "clone" "source" (cloneOpts "source") (start world0))
    = Returns ([], Some err) /\
    Is err KOther = false.
Proof.
  assert (H1 : sn_Stat stubborn "source" (world (start world0))
               = ((mkInfo KindActive "source" "base" ∅, None), world0)) by reflexivity.
  assert (H2 : sn_Mounts stubborn "source" world0 = ((bindMount "source", None), world0))
    by reflexivity.
  assert (H3 : sn_Prepare stubborn "clone"
                 (i_Parent (mkInfo KindActive "source" "base" ∅)) innerOpts world0
               = ((tmpfsMount, None), preparedWorld)) by (vm_compute; reflexivity).
  assert (H4 : copyWritableLayer sys 10 (bindMount "source") tmpfsMount
                 (mkState preparedWorld
                    (log (start world0)
                     ++ [CallStat "source"; CallMounts "source";
                         CallPrepare "clone"
                           (i_Parent (mkInfo KindActive "source" "base" ∅)) innerOpts]))
               = (Returns (Some (Errorf_w "destination: " noDir "")),
                  mkState preparedWorld
                    [CallStat "source"; CallMounts "source";
                     CallPrepare "clone" "base" innerOpts])) by reflexivity.
  destruct (X14_rollback_error_kind stubborn sys 10 "clone" "source"
              (cloneOpts "source") (start world0) _ _ _ _ _ _ _ _ H1 H2 H3 H4)
    as (err & Hrun & Hkind).
  exists err. split; [exact Hrun|]. rewrite Hkind. reflexivity.
Defined.

(** The second entry cannot be removed: the first is gone, the second is
    still there, and its error is returned. *)
Lemma X16_witness :
  fst (clearDir pinnedSys "/snapshots/base" (start world0))
  = Returns (Some (osError "unlinkat" pinned "operation not permitted")) /\
  calls (clearDir pinnedSys "/snapshots/base") (start world0)
  = [CallReadDir "/snapshots/base"; CallRemoveAll "/snapshots/base/base.txt";
     CallRemoveAll pinned].
Proof.
  assert (H1 : os_ReadDir pinnedSys "/snapshots/base" (world (start world0))
               = ((([baseTxt] ++ deletedTxt :: [])%list, None), world0)) by reflexivity.
  assert (H2 : removedAll pinnedSys "/snapshots/base" [baseTxt] world0
               = Some (snd (removeAll "/snapshots/base/base.txt" world0)))
    by reflexivity.
  assert (H3 : os_RemoveAll pinnedSys
                 (filepath_Join pinnedSys "/snapshots/base" (de_Name deletedTxt))
                 (snd (removeAll "/snapshots/base/base.txt" world0))
               = (Some (osError "unlinkat" pinned "operation not permitted"),
                  snd (removeAll "/snapshots/base/base.txt" world0))) by reflexivity.
  pose proof (X16_clearDir_stops pinnedSys "/snapshots/base" [baseTxt] [] deletedTxt
                (start world0) _ _ _ _ H1 H2 H3) as Hrun.
  split; [now rewrite Hrun|].
  apply calls_of_log. now rewrite Hrun.
Defined.

Lemma X17_witness :
  copyWritableLayer sys 10 (bindMount "source") fileMount (start world0)
  = (Returns (Some (Errorf_w "clear destination directory: "
                      (osError "open" "/snapshots/base/base.txt" "not a directory") "")),
     mkState world0 [CallReadDir "/snapshots/base/base.txt"]).
Proof.
  apply (X17_unreadable_destination sys 10 (bindMount "source") fileMount
           "/snapshots/source" "/snapshots/base/base.txt" (start world0) []
           (osError "open" "/snapshots/base/base.txt" "not a directory") world0);
    reflexivity.
Defined.

(** The source directory is not there: the destination has lost its files
    all the same. *)
Lemma X18_witness :
  copyWritableLayer sys 10 goneMount (bindMount "base") (start world0)
  = (Returns (Some (notExist "lstat" "/snapshots/gone")),
     mkState (world cleared) (log cleared ++ [CallLstat "/snapshots/gone"])) /\
  tree "/snapshots/base" (world cleared) = [].
Proof.
  split; [|vm_compute; reflexivity].
  apply (X18_missing_source_directory sys 10 goneMount (bindMount "base")
           "/snapshots/gone" "/snapshots/base" (start world0) cleared
           (mkFileInfo "" 0%N) (notExist "lstat" "/snapshots/gone") (world cleared));
    vm_compute; reflexivity.
Defined.

Lemma X19_witness :
  copyDir sys 1 "/snapshots/source/link.txt" "/snapshots/base" (start world0)
  = (Returns None, mkState world0 [CallLstat "/snapshots/source/link.txt"]).
Proof.
  apply (X19_source_not_a_directory sys 0 "/snapshots/source/link.txt" "/snapshots/base"
           (start world0) (mkFileInfo "link.txt" (N.lor ModeSymlink ModePerm)) world0);
    reflexivity.
Defined.

Lemma X22_witness :
  fst (copyFile sys "/snapshots/source/real.txt" "/snapshots/base/real.txt" 420%N
                (start world0))
  = Returns None.
Proof.
  assert (H1 : os_Open sys "/snapshots/source/real.txt" (world (start world0))
               = ((0%N, None), snd (open "/snapshots/source/real.txt" world0)))
    by reflexivity.
  assert (H2 : os_OpenFile sys "/snapshots/base/real.txt"
                 (N.lor O_CREATE (N.lor O_WRONLY O_TRUNC)) 420%N
                 (snd (open "/snapshots/source/real.txt" world0))
               = ((1%N, None),
                  snd (openFile "/snapshots/base/real.txt" 577%N 420%N
                         (snd (open "/snapshots/source/real.txt" world0)))))
    by reflexivity.
  assert (H3 : io_Copy sys 1%N 0%N
                 (snd (openFile "/snapshots/base/real.txt" 577%N 420%N
                         (snd (open "/snapshots/source/real.txt" world0))))
               = ((4%Z, None),
                  snd (copy 1%N 0%N
                         (snd (openFile "/snapshots/base/real.txt" 577%N 420%N
                                 (snd (open "/snapshots/source/real.txt" world0)))))))
    by reflexivity.
  assert (H4 : f_Close sys 1%N
                 (snd (copy 1%N 0%N
                         (snd (openFile "/snapshots/base/real.txt" 577%N 420%N
                                 (snd (open "/snapshots/source/real.txt" world0))))))
               = (None,
                  snd (copy 1%N 0%N
                         (snd (openFile "/snapshots/base/real.txt" 577%N 420%N
                                 (snd (open "/snapshots/source/real.txt" world0)))))))
    by reflexivity.
  exact (proj1 (X22_copyFile_error sys "/snapshots/source/real.txt"
                  "/snapshots/base/real.txt" 420%N (start world0)
                  _ _ _ _ _ _ _ _ _ H1 H2 H3 H4)).
Defined.

End MoreRuns.
